(** * sqlyac: the statement parser, the variable interpolation and the risk
    classifier of [main.go], embedded as Rocq functions.

    Go strings are byte sequences; they are modelled by [string] (a sequence
    of [ascii], i.e. of bytes).  The four regular expressions of [main.go]
    are written as terms of a small regular-expression syntax and run by a
    backtracking matcher with the leftmost-first (Perl, RE2) preference
    order that Go's [regexp] package implements.  Go's matcher walks a text
    by code points; the expressions here start with an ASCII character and
    name ASCII classes only, apart from [.], whose run ends at an ASCII
    byte or at the end of the text, so walking by bytes gives the same
    matches.

    The file that [parseSQL] opens is given by its content; that it cannot
    be opened is outside the embedding. *)

From Stdlib Require Import String Ascii List NArith Bool Lia DecimalString.
From stdpp Require Import gmap strings.
Import ListNotations.

#[local] Arguments String.append !s1 s2 : simpl nomatch.
#[local] Arguments Ascii.eqb : simpl never.

(** ** Bytes and character classes *)

Definition byte (n : nat) : ascii := ascii_of_nat n.

Definition code (c : ascii) : N := N_of_ascii c.

Definition in_range (lo hi : N) (c : ascii) : bool :=
  ((lo <=? code c) && (code c <=? hi))%N.

(** [\s] of Go's regexp syntax: [\t\n\f\r ]. *)
Definition re_space (c : ascii) : bool :=
  Ascii.eqb c (byte 9) || Ascii.eqb c (byte 10) || Ascii.eqb c (byte 12)
  || Ascii.eqb c (byte 13) || Ascii.eqb c (byte 32).

(** [\w] of Go's regexp syntax: [0-9A-Za-z_]. *)
Definition re_word (c : ascii) : bool :=
  in_range 48 57 c || in_range 65 90 c || in_range 97 122 c
  || Ascii.eqb c "_".

(** [.] without the [s] flag: any character but the line feed. *)
Definition re_dot (c : ascii) : bool := negb (Ascii.eqb c (byte 10)).

Definition re_dash (c : ascii) : bool := Ascii.eqb c "-".

(** ** String helpers *)

Definition LF : string := String (byte 10) "".

Fixpoint strip_prefix (p s : string) : option string :=
  match p with
  | EmptyString => Some s
  | String a p' =>
      match s with
      | String b s' => if Ascii.eqb a b then strip_prefix p' s' else None
      | EmptyString => None
      end
  end.

(** [strings.HasPrefix]. *)
Definition HasPrefix (s p : string) : bool :=
  match strip_prefix p s with Some _ => true | None => false end.

(** [strings.Contains]. *)
Fixpoint Contains (s sub : string) : bool :=
  HasPrefix s sub ||
  match s with
  | String _ s' => Contains s' sub
  | EmptyString => false
  end.

(** [strings.Join]. *)
Fixpoint Join (elems : list string) (sep : string) : string :=
  match elems with
  | [] => ""
  | [e] => e
  | e :: rest => e +:+ sep +:+ Join rest sep
  end.

(** The text that lies between a position [s] and a later position [s']
    of the same string, both given by the suffix that starts there. *)
Definition consumed (s s' : string) : string :=
  substring 0 (String.length s - String.length s') s.

(** ** Regular expressions *)

Inductive regex : Type :=
| Lit (l : string)                (* literal text *)
| Star (p : ascii -> bool)        (* x*   greedy, x a character class *)
| Plus (p : ascii -> bool)        (* x+   greedy *)
| LazyPlus (p : ascii -> bool)    (* x+?  non-greedy *)
| Cap (r : regex)                 (* ( r ) capturing group *)
| Seq (r1 r2 : regex)             (* r1 r2 *)
| Alt (r1 r2 : regex)             (* r1 | r2 *)
| Bol                             (* ^  beginning of text *)
| Eol.                            (* $  end of text *)

Infix "⋅" := Seq (at level 60, right associativity).

(** A match in progress: the rest of the text and the groups captured so
    far, in order. *)
Definition cont : Type := string -> list string -> option (string * list string).

(** Greedy star: take one more character first, give it back when the rest
    of the expression fails. *)
Fixpoint star_greedy (p : ascii -> bool) (s : string)
    (k : string -> option (string * list string)) : option (string * list string) :=
  match s with
  | String c s' =>
      if p c then
        match star_greedy p s' k with
        | Some r => Some r
        | None => k s
        end
      else k s
  | EmptyString => k s
  end.

(** Non-greedy star: try the rest of the expression first. *)
Fixpoint star_lazy (p : ascii -> bool) (s : string)
    (k : string -> option (string * list string)) : option (string * list string) :=
  match k s with
  | Some r => Some r
  | None =>
      match s with
      | String c s' => if p c then star_lazy p s' k else None
      | EmptyString => None
      end
  end.

Definition one_then (p : ascii -> bool) (s : string)
    (f : string -> option (string * list string)) : option (string * list string) :=
  match s with
  | String c s' => if p c then f s' else None
  | EmptyString => None
  end.

(** [run n r s caps k] matches [r] at the position [s] of a text of length
    [n] and continues with [k]; alternatives are tried in the order of
    preference, the first complete match wins. *)
Fixpoint run (n : nat) (r : regex) (s : string) (caps : list string) (k : cont)
    : option (string * list string) :=
  match r with
  | Lit l =>
      match strip_prefix l s with
      | Some s' => k s' caps
      | None => None
      end
  | Star p => star_greedy p s (fun s' => k s' caps)
  | Plus p => one_then p s (fun s1 => star_greedy p s1 (fun s' => k s' caps))
  | LazyPlus p => one_then p s (fun s1 => star_lazy p s1 (fun s' => k s' caps))
  | Cap r1 => run n r1 s caps (fun s' caps' => k s' (caps' ++ [consumed s s']))
  | Seq r1 r2 => run n r1 s caps (fun s' caps' => run n r2 s' caps' k)
  | Alt r1 r2 =>
      match run n r1 s caps k with
      | Some x => Some x
      | None => run n r2 s caps k
      end
  | Bol => if Nat.eqb (String.length s) n then k s caps else None
  | Eol => match s with EmptyString => k s caps | _ => None end
  end.

Definition accept : cont := fun s caps => Some (s, caps).

(** A match: the text before it, the matched text, the text after it and
    the captured groups. *)
Record Match : Type := mkMatch {
  m_pre : string;
  m_text : string;
  m_post : string;
  m_groups : list string
}.

(** The leftmost match: start positions are tried from left to right. *)
Fixpoint search (n : nat) (r : regex) (s : string) : option Match :=
  match run n r s [] accept with
  | Some (rest, caps) => Some (mkMatch "" (consumed s rest) rest caps)
  | None =>
      match s with
      | String c s' =>
          match search n r s' with
          | Some m => Some (mkMatch (String c (m_pre m)) (m_text m) (m_post m) (m_groups m))
          | None => None
          end
      | EmptyString => None
      end
  end.

Definition find (r : regex) (s : string) : option Match :=
  search (String.length s) r s.

(** [Regexp.FindStringSubmatch]: the matched text followed by the groups,
    [None] for Go's nil. *)
Definition FindStringSubmatch (r : regex) (s : string) : option (list string) :=
  match find r s with
  | Some m => Some (m_text m :: m_groups m)
  | None => None
  end.

(** [Regexp.MatchString]. *)
Definition MatchString (r : regex) (s : string) : bool :=
  match find r s with Some _ => true | None => false end.

(** The expressions compiled in [parseSQL] and [interpolateVariables]. *)

(** [--\s*@name\s*(\w+)] *)
Definition nameRegex : regex :=
  Lit "--" ⋅ Star re_space ⋅ Lit "@name" ⋅ Star re_space ⋅ Cap (Plus re_word).

(** [^---+$] *)
Definition separatorRegex : regex :=
  Bol ⋅ Lit "--" ⋅ Plus re_dash ⋅ Eol.

(** [SET\s+@(\w+)\s*=\s*(.+?)(?:;|$)] *)
Definition variableRegex : regex :=
  Lit "SET" ⋅ Plus re_space ⋅ Lit "@" ⋅ Cap (Plus re_word) ⋅ Star re_space ⋅
  Lit "=" ⋅ Star re_space ⋅ Cap (LazyPlus re_dot) ⋅ Alt (Lit ";") Eol.

(** [@(\w+)] *)
Definition variableRefRegex : regex :=
  Lit "@" ⋅ Cap (Plus re_word).

(** ** [strings.TrimSpace]

    Go trims every leading and trailing code point that [unicode.IsSpace]
    accepts: the six ASCII ones and, in their UTF-8 encoding, U+0085,
    U+00A0, U+1680, U+2000..U+200A, U+2028, U+2029, U+202F, U+205F and
    U+3000.  A byte that starts no such encoding stops the trimming. *)

Definition is_byte (n : nat) (c : ascii) : bool := Ascii.eqb c (byte n).

Definition isSpace1 (c : ascii) : bool :=
  is_byte 9 c || is_byte 10 c || is_byte 11 c || is_byte 12 c || is_byte 13 c || is_byte 32 c.

Definition isSpace2 (c d : ascii) : bool :=
  is_byte 194 c && (is_byte 133 d || is_byte 160 d).

Definition isSpace3 (c d e : ascii) : bool :=
  (is_byte 225 c && is_byte 154 d && is_byte 128 e)
  || (is_byte 226 c && is_byte 128 d &&
        (in_range 128 138 e || is_byte 168 e || is_byte 169 e || is_byte 175 e))
  || (is_byte 226 c && is_byte 129 d && is_byte 159 e)
  || (is_byte 227 c && is_byte 128 d && is_byte 128 e).

Fixpoint TrimLeft (s : string) : string :=
  match s with
  | String c s1 =>
      if isSpace1 c then TrimLeft s1
      else
        match s1 with
        | String d s2 =>
            if isSpace2 c d then TrimLeft s2
            else
              match s2 with
              | String e s3 => if isSpace3 c d e then TrimLeft s3 else s
              | EmptyString => s
              end
        | EmptyString => s
        end
  | EmptyString => s
  end.

(** The same from the end, on the reversed string. *)
Fixpoint trim_reversed (r : string) : string :=
  match r with
  | String e r1 =>
      if isSpace1 e then trim_reversed r1
      else
        match r1 with
        | String d r2 =>
            if isSpace2 d e then trim_reversed r2
            else
              match r2 with
              | String c r3 => if isSpace3 c d e then trim_reversed r3 else r
              | EmptyString => r
              end
        | EmptyString => r
        end
  | EmptyString => r
  end.

Definition TrimRight (s : string) : string :=
  String.rev (trim_reversed (String.rev s)).

Definition TrimSpace (s : string) : string := TrimRight (TrimLeft s).

(** ** [bufio.Scanner] with the default split function [ScanLines] *)

(** The text cut after every line feed; a last line without line feed
    counts when it is not empty. *)
Fixpoint rawLines (s : string) : list string :=
  match s with
  | EmptyString => []
  | String c s' =>
      if is_byte 10 c then "" :: rawLines s'
      else
        match rawLines s' with
        | [] => [String c ""]
        | l :: ls => String c l :: ls
        end
  end.

(** [dropCR]: one trailing carriage return is removed. *)
Definition dropCR (l : string) : string :=
  match String.rev l with
  | String c r => if is_byte 13 c then String.rev r else l
  | EmptyString => l
  end.

Inductive error : Type :=
| ErrTooLong.   (* bufio.Scanner: token too long *)

(** [bufio.MaxScanTokenSize] = 64 * 1024: a line that fills the buffer
    before its line feed arrives stops the scanner with [ErrTooLong]. *)
Definition MaxScanTokenSize : N := 65536.

Definition tooLong (l : string) : bool :=
  (MaxScanTokenSize <=? N.of_nat (String.length l))%N.

(** The tokens [scanner.Text()] delivers while [scanner.Scan()] is true,
    and [scanner.Err()]. *)
Fixpoint scanTokens (raw : list string) : list string * option error :=
  match raw with
  | [] => ([], None)
  | l :: rest =>
      if tooLong l then ([], Some ErrTooLong)
      else let (ts, e) := scanTokens rest in (dropCR l :: ts, e)
  end.

Definition Scan (content : string) : list string * option error :=
  scanTokens (rawLines content).

(** ** The document parser, [parseSQL] *)

Record Query : Type := mkQuery { Name : string; SQL : string }.

(** The local variables of [parseSQL] that the loop updates.  [None] is
    the nil pointer [currentQuery] starts with. *)
Record state : Type := mkState {
  queries : list Query;
  currentQuery : option Query;
  sqlLines : list string;
  variables : gmap string string
}.

Definition initial : state := mkState [] None [] ∅.

(** [matches[i]]; Go's slice has one entry per group of the expression
    after the matched text, so the index is always in range. *)
Definition at_index (matches : list string) (i : nat) : string := nth i matches "".

(** "if we have a current query, save it": the statement sequence after the
    test [currentQuery != nil && currentQuery.Name != ""] and the append. *)
Definition saved (st : state) : list Query :=
  match currentQuery st with
  | Some q =>
      if negb (String.eqb (Name q) "")
      then queries st ++ [mkQuery (Name q) (TrimSpace (Join (sqlLines st) LF))]
      else queries st
  | None => queries st
  end.

(** One iteration of the [for scanner.Scan()] loop. *)
Definition step (st : state) (line : string) : state :=
  match FindStringSubmatch variableRegex (TrimSpace line) with
  | Some matches =>
      let varName := at_index matches 1 in
      let varValue := TrimSpace (at_index matches 2) in
      mkState (queries st) (currentQuery st) (sqlLines st)
              (<[varName := varValue]> (variables st))
  | None =>
      if MatchString separatorRegex (TrimSpace line) then
        mkState (saved st) (Some (mkQuery "" "")) [] (variables st)
      else
        match FindStringSubmatch nameRegex line with
        | Some matches =>
            match currentQuery st with
            | Some q =>
                mkState (queries st) (Some (mkQuery (at_index matches 1) (SQL q)))
                        (sqlLines st) (variables st)
            | None => st
            end
        | None =>
            if HasPrefix (TrimSpace line) "--" then st
            else
              match currentQuery st with
              | Some _ =>
                  mkState (queries st) (currentQuery st) (sqlLines st ++ [line])
                          (variables st)
              | None => st
              end
        end
  end.

Definition loop (st : state) (lines : list string) : state :=
  fold_left step lines st.

(** The loop followed by "don't forget the last query". *)
Definition parseLines (lines : list string) : list Query * gmap string string :=
  let st := loop initial lines in (saved st, variables st).

(** [parseSQL] on a file that could be opened, given by its content. *)
Definition parseSQL (content : string) : list Query * gmap string string * option error :=
  let (lines, err) := Scan content in
  (parseLines lines, err).

(** ** The parser before variables were introduced (the earlier [main.go]) *)
Module Earlier.

Record state : Type := mkState {
  queries : list Query;
  currentQuery : option Query;
  sqlLines : list string
}.

Definition initial : state := mkState [] None [].

Definition saved (st : state) : list Query :=
  match currentQuery st with
  | Some q =>
      if negb (String.eqb (Name q) "")
      then queries st ++ [mkQuery (Name q) (TrimSpace (Join (sqlLines st) LF))]
      else queries st
  | None => queries st
  end.

Definition step (st : state) (line : string) : state :=
  if MatchString separatorRegex (TrimSpace line) then
    mkState (saved st) (Some (mkQuery "" "")) []
  else
    match FindStringSubmatch nameRegex line with
    | Some matches =>
        match currentQuery st with
        | Some q =>
            mkState (queries st) (Some (mkQuery (at_index matches 1) (SQL q)))
                    (sqlLines st)
        | None => st
        end
    | None =>
        if HasPrefix (TrimSpace line) "--" then st
        else
          match currentQuery st with
          | Some _ => mkState (queries st) (currentQuery st) (sqlLines st ++ [line])
          | None => st
          end
    end.

Definition loop (st : state) (lines : list string) : state :=
  fold_left step lines st.

Definition parseLines (lines : list string) : list Query :=
  saved (loop initial lines).

Definition parseSQL (content : string) : list Query * option error :=
  let (lines, err) := Scan content in
  (parseLines lines, err).

End Earlier.

(** ** Interpolation, [interpolateVariables] *)

(** [Regexp.ReplaceAllStringFunc] for an expression that matches no empty
    text, as [@(\w+)] does: the text before the leftmost match is copied,
    the match is replaced by [repl] of it, and the search goes on behind
    the match, in the source text only.  Every round consumes at least one
    byte, so [fuel] beyond the length of the text is never used up. *)
Fixpoint replaceAll (fuel n : nat) (re : regex) (src : string)
    (repl : string -> string) : string :=
  match fuel with
  | 0 => src
  | S fuel' =>
      match search n re src with
      | None => src
      | Some m =>
          m_pre m +:+ repl (m_text m) +:+ replaceAll fuel' n re (m_post m) repl
      end
  end.

Definition ReplaceAllStringFunc (re : regex) (src : string)
    (repl : string -> string) : string :=
  replaceAll (S (String.length src)) (String.length src) re src repl.

(** The function literal passed to [ReplaceAllStringFunc]. *)
Definition replacement (variables : gmap string string) (matched : string) : string :=
  let varName := at_index (default [] (FindStringSubmatch variableRefRegex matched)) 1 in
  match variables !! varName with
  | Some value => value
  | None => matched
  end.

Definition interpolateVariables (sql : string) (variables : gmap string string)
    : string * option error :=
  let result := ReplaceAllStringFunc variableRefRegex sql (replacement variables) in
  (result, None).

(** ** The risk classifier *)

Definition schemaKeywords : list string :=
  [ "drop table"; "drop database"; "drop schema";
    "alter table"; "alter database"; "alter schema";
    "create table"; "create database"; "create schema";
    "truncate table"; "truncate" ].

Definition updateKeywords : list string :=
  [ "update "; "delete "; "delete from"; "insert" ].

(** [for _, keyword := range keywords { if strings.Contains(sql, keyword)
    { return true } }; return false] *)
Fixpoint anyKeyword (sql : string) (keywords : list string) : bool :=
  match keywords with
  | [] => false
  | keyword :: rest => if Contains sql keyword then true else anyKeyword sql rest
  end.

Section Classifier.

(** [strings.ToLower] maps every code point to its lower case by Go's
    Unicode tables; the classifier is embedded over it. *)
Variable ToLower : string -> string.

Definition containsSchemaChanges (sql : string) : bool :=
  let sql := ToLower sql in
  anyKeyword sql schemaKeywords.

Definition containsUpdates (sql : string) : bool :=
  let sql := ToLower sql in
  anyKeyword sql updateKeywords.

End Classifier.

(** On ASCII text [strings.ToLower] changes the letters [A-Z] only. *)
Definition lowerByte (c : ascii) : ascii :=
  if in_range 65 90 c then ascii_of_N (code c + 32) else c.

Fixpoint asciiToLower (s : string) : string :=
  match s with
  | EmptyString => EmptyString
  | String c s' => String (lowerByte c) (asciiToLower s')
  end.

(** * Notions used in the statements *)

(** ** Texts *)

(** [sub] occurs in [s]. *)
Definition occurs_in (sub s : string) : Prop :=
  exists pre post, s = pre +:+ sub +:+ post.

(** Every character of [s] is in the class [p]. *)
Fixpoint every (p : ascii -> bool) (s : string) : bool :=
  match s with
  | EmptyString => true
  | String c s' => p c && every p s'
  end.

(** [s] starts with a character of the class [p]. *)
Definition starts_with (p : ascii -> bool) (s : string) : bool :=
  match s with
  | String c _ => p c
  | EmptyString => false
  end.

(** The longest prefix of [s] in the class [p], and what follows it. *)
Fixpoint span (p : ascii -> bool) (s : string) : string * string :=
  match s with
  | String c s' =>
      if p c then let (a, b) := span p s' in (String c a, b) else ("", s)
  | EmptyString => ("", "")
  end.

(** A reference token starts at the beginning of [s]: an [@] and at least
    one word character. *)
Definition ref_starts (s : string) : bool :=
  match s with
  | String c rest => Ascii.eqb c "@" && starts_with re_word rest
  | EmptyString => false
  end.

(** The double quote. *)
Definition DQ : string := String (byte 34) "".

(** The file made of the given lines, each ended by a line feed. *)
Fixpoint fileOf (lines : list string) : string :=
  match lines with
  | [] => ""
  | l :: rest => l +:+ LF +:+ fileOf rest
  end.

(** A line as a text file has it: no line feed inside, no carriage return
    at the end, shorter than the scanner's buffer. *)
Definition plainLine (l : string) : bool :=
  every (fun c => negb (is_byte 10 c)) l
  && match String.rev l with
     | String c _ => negb (is_byte 13 c)
     | EmptyString => true
     end
  && negb (tooLong l).

(** ** Expressions *)

(** [Matches n r s s']: in a text of length [n], the expression [r] matches
    from the position [s] up to the position [s'] (positions are given by
    the rest of the text). *)
Inductive Matches (n : nat) : regex -> string -> string -> Prop :=
| M_Lit (l s' : string) : Matches n (Lit l) (l +:+ s') s'
| M_Star (p : ascii -> bool) (a s' : string) :
    every p a = true -> Matches n (Star p) (a +:+ s') s'
| M_Plus (p : ascii -> bool) (a s' : string) :
    a <> "" -> every p a = true -> Matches n (Plus p) (a +:+ s') s'
| M_LazyPlus (p : ascii -> bool) (a s' : string) :
    a <> "" -> every p a = true -> Matches n (LazyPlus p) (a +:+ s') s'
| M_Cap (r : regex) (s s' : string) :
    Matches n r s s' -> Matches n (Cap r) s s'
| M_Seq (r1 r2 : regex) (s s1 s2 : string) :
    Matches n r1 s s1 -> Matches n r2 s1 s2 -> Matches n (Seq r1 r2) s s2
| M_AltL (r1 r2 : regex) (s s' : string) :
    Matches n r1 s s' -> Matches n (Alt r1 r2) s s'
| M_AltR (r1 r2 : regex) (s s' : string) :
    Matches n r2 s s' -> Matches n (Alt r1 r2) s s'
| M_Bol (s : string) : String.length s = n -> Matches n Bol s s
| M_Eol : Matches n Eol "" "".

(** The number of capturing groups of an expression. *)
Fixpoint groups (r : regex) : nat :=
  match r with
  | Cap r1 => S (groups r1)
  | Seq r1 r2 => groups r1 + groups r2
  | Alt r1 r2 => groups r1 + groups r2
  | _ => 0
  end.

(** No group stands inside an alternative, as in the expressions of
    [main.go]. *)
Fixpoint flatAlternatives (r : regex) : bool :=
  match r with
  | Cap r1 => flatAlternatives r1
  | Seq r1 r2 => flatAlternatives r1 && flatAlternatives r2
  | Alt r1 r2 =>
      Nat.eqb (groups r1) 0 && Nat.eqb (groups r2) 0
      && flatAlternatives r1 && flatAlternatives r2
  | _ => true
  end.

(** ** Lines *)

(** The five kinds of line, in the order in which the loop body of
    [parseSQL] tests for them. *)
Inductive kind : Type :=
| VariableDefinition (varName varValue : string)
| Delimiter
| Annotation (name : string)
| Comment
| Content.

Definition classify (line : string) : kind :=
  match FindStringSubmatch variableRegex (TrimSpace line) with
  | Some matches =>
      VariableDefinition (at_index matches 1) (TrimSpace (at_index matches 2))
  | None =>
      if MatchString separatorRegex (TrimSpace line) then Delimiter
      else
        match FindStringSubmatch nameRegex line with
        | Some matches => Annotation (at_index matches 1)
        | None => if HasPrefix (TrimSpace line) "--" then Comment else Content
        end
  end.

Definition isDelimiter (line : string) : bool :=
  match classify line with Delimiter => true | _ => false end.

Definition isAnnotation (line : string) : bool :=
  match classify line with Annotation _ => true | _ => false end.

Definition isContent (line : string) : bool :=
  match classify line with Content => true | _ => false end.

Definition isDefinition (line : string) : bool :=
  match classify line with VariableDefinition _ _ => true | _ => false end.

(** ** Blocks *)

(** A block: the delimiter line that opens it and the lines up to the next
    delimiter line or the end of the file. *)
Record block : Type := mkBlock { opener : string; body : list string }.

Definition linesOf (b : block) : list string := opener b :: body b.

(** A block is opened by a delimiter line and holds none. *)
Definition isBlock (b : block) : Prop :=
  isDelimiter (opener b) = true /\ Forall (fun l => isDelimiter l = false) (body b).

(** One of the lines of the block is an annotation. *)
Definition annotated (b : block) : bool := existsb isAnnotation (body b).

(** The name the last annotation of the lines gives, [name] without one. *)
Fixpoint lastAnnotation (lines : list string) (name : string) : string :=
  match lines with
  | [] => name
  | l :: rest =>
      lastAnnotation rest
        (match classify l with Annotation n => n | _ => name end)
  end.

Definition blockName (b : block) : string := lastAnnotation (body b) "".

Definition contentLines (lines : list string) : list string :=
  List.filter isContent lines.

Definition blockText (b : block) : string :=
  TrimSpace (Join (contentLines (body b)) LF).

Definition named (b : block) : bool := negb (String.eqb (blockName b) "").

Definition statementOf (b : block) : Query := mkQuery (blockName b) (blockText b).

(** ** The two parsers *)

(** The part of the state the earlier parser has too. *)
Definition forget (st : state) : Earlier.state :=
  Earlier.mkState (queries st) (currentQuery st) (sqlLines st).

(** ** Variable definitions *)

(** A definition as it stands in a line:
    [SET], white space, [@name], white space, [=], white space, and [rhs],
    the right-hand side: all that follows up to the end of the line. *)
Definition definitionLine (ws1 name ws2 ws3 rhs : string) : string :=
  "SET" +:+ ws1 +:+ "@" +:+ name +:+ ws2 +:+ "=" +:+ ws3 +:+ rhs.

(** The parts are what they are called: [ws1] is non-empty white space,
    [name] a non-empty run of word characters, [ws2] and [ws3] white space,
    and [rhs] starts with something else than white space. *)
Definition definitionSides (ws1 name ws2 ws3 rhs : string) : bool :=
  negb (String.eqb ws1 "") && every re_space ws1 &&
  negb (String.eqb name "") && every re_word name &&
  every re_space ws2 && every re_space ws3 &&
  negb (String.eqb rhs "") && negb (starts_with re_space rhs).

(** A character behind which a value goes on: no line feed, no
    semicolon. *)
Definition valueChar (c : ascii) : bool := re_dot c && negb (Ascii.eqb c ";").

(** The part of a right-hand side that is its value: the first character
    and what follows it up to the first semicolon or the end of the
    line. *)
Definition valueOf (rhs : string) : string :=
  match rhs with
  | String c r => String c (fst (span valueChar r))
  | EmptyString => ""
  end.

(** No match of [r] starts inside [pre], in the text [pre +:+ rest]:
    a match that starts at [rest] is the leftmost one. *)
Definition leftmostAt (r : regex) (pre rest : string) : Prop :=
  forall p1 p2 s', pre = p1 +:+ p2 -> p2 <> "" ->
    ~ Matches (String.length (pre +:+ rest)) r (p2 +:+ rest) s'.

(** The same, decided with the matcher: it is run at every position
    of [pre]. *)
Fixpoint noStart (n : nat) (r : regex) (pre rest : string) : bool :=
  match pre with
  | EmptyString => true
  | String c p =>
      match run n r (String c p +:+ rest) [] accept with
      | Some _ => false
      | None => noStart n r p rest
      end
  end.

(** ** Annotations *)

(** A line with an annotation: [pre], the comment marker, white space,
    [@name], white space, the name, and [rest]. *)
Definition annotationLine (pre ws1 ws2 name rest : string) : string :=
  pre +:+ "--" +:+ ws1 +:+ "@name" +:+ ws2 +:+ name +:+ rest.

Definition noDash (c : ascii) : bool := negb (Ascii.eqb c "-").

Definition noAt (c : ascii) : bool := negb (Ascii.eqb c "@").

(** ** Files of the test suite *)

(** The file of [TestParseVariables]. *)
Definition testVariablesFile : string :=
  "SET @user_id=123;" +:+ LF +:+
  "SET @status=" +:+ DQ +:+ "active" +:+ DQ +:+ ";" +:+ LF +:+
  "SET @limit=10;" +:+ LF +:+
  "SET @active=true;" +:+ LF +:+
  LF +:+
  "---" +:+ LF +:+
  "-- @name SelectUser" +:+ LF +:+
  "SELECT * " +:+ LF +:+
  "FROM Users" +:+ LF +:+
  "WHERE id=@user_id;" +:+ LF +:+
  "---" +:+ LF +:+
  LF +:+
  "---" +:+ LF +:+
  "-- @name SelectActiveUsers" +:+ LF +:+
  "SELECT * " +:+ LF +:+
  "FROM Users " +:+ LF +:+
  "WHERE status=@status" +:+ LF +:+
  "LIMIT @limit;" +:+ LF +:+
  "---".

(** A line of 65536 bytes. *)
Definition longLine : string :=
  String.concat "" (repeat "0123456789abcdef" 4096).

(** * The rest of [main.go] *)

(** ** [confirmQuery] *)

(** [strings.Split] for a separator of one byte, as in
    [strings.Split(sql, "\n")]: the pieces between the separators, one
    more than there are separators. *)
Fixpoint Split (s : string) (sep : ascii) : list string :=
  match s with
  | EmptyString => [""]
  | String c s' =>
      if Ascii.eqb c sep then "" :: Split s' sep
      else
        match Split s' sep with
        | piece :: pieces => String c piece :: pieces
        | [] => [String c ""]
        end
  end.

Definition min (a b : nat) : nat := if a <? b then a else b.

(** [fmt.Sprintf("%d", n)] for a length. *)
Definition Sprintf_d (n : nat) : string := NilEmpty.string_of_uint (Nat.to_uint n).

(** The text [confirmQuery] shows of the query. *)
Definition preview (sql : string) : string :=
  let lines := Split sql (byte 10) in
  let preview := Join (firstn (min 5 (length lines)) lines) LF in
  if 5 <? length lines
  then preview +:+ LF +:+ " and " +:+ Sprintf_d (length lines) +:+ " more lines..."
  else preview.

(** What [confirmQuery] writes to the standard error. *)
Definition confirmPrompt (queryName sql : string) : string :=
  (LF +:+ "query: " +:+ queryName +:+ LF) +:+
  (preview sql +:+ LF) +:+
  (LF +:+ "run this query? (y/n): ").

(** [strings.HasSuffix]. *)
Definition HasSuffix (s suffix : string) : bool :=
  (String.length suffix <=? String.length s) &&
  String.eqb (substring (String.length s - String.length suffix)
                        (String.length suffix) s) suffix.

(** ** [Config] and [main] *)

Record Config : Type := mkConfig {
  Confirm : bool;
  ConfirmSchemaChanges : bool;
  ConfirmUpdates : bool
}.

(** "if config doesn't exist, use defaults". *)
Definition defaultConfig : Config := mkConfig false true true.

(** What [main] finds around it. *)
Record invocation : Type := mkInvocation {
  fileFlag : string;             (* -file after flag.Parse() *)
  nameFlag : string;             (* -name *)
  confirmFlag : bool;            (* -confirm *)
  args : list string;            (* flag.Args() *)
  loadedConfig : option Config;  (* loadConfig(), None when it returns an error *)
  files : string -> string + string;
                                 (* the content of the file at a path, or the
                                    reason why it cannot be opened *)
  response : string              (* what fmt.Scanln stores in response *)
}.

(** What [main] leaves behind: the two output streams and the exit code
    (0 when [main] returns). *)
Record result : Type := mkResult {
  stdout : string;
  stderr : string;
  exitCode : nat
}.

(** [err.Error()], printed by [%v]. *)
Definition errorText (e : error) : string :=
  match e with
  | ErrTooLong => "bufio.Scanner: token too long"
  end.

Section Main.

Variable ToLower : string -> string.

(** The test on the answer at the end of [confirmQuery]. *)
Definition accepted (response : string) : bool :=
  let response := ToLower (TrimSpace response) in
  String.eqb response "y" || String.eqb response "yes".

Definition needsConfirm (confirm : bool) (config : Config) (interpolatedSQL : string) : bool :=
  confirm || Confirm config ||
  (ConfirmSchemaChanges config && containsSchemaChanges ToLower interpolatedSQL) ||
  (ConfirmUpdates config && containsUpdates ToLower interpolatedSQL).

(** The body of "find and output the requested query" for the query [q]
    whose name matches. *)
Definition output (confirm : bool) (config : Config) (response : string)
    (variables : gmap string string) (q : Query) : result :=
  match interpolateVariables (SQL q) variables with
  | (_, Some e) =>
      mkResult "" ("error interpolating variables: " +:+ errorText e +:+ LF) 1
  | (interpolatedSQL, None) =>
      if needsConfirm confirm config interpolatedSQL then
        if accepted response
        then mkResult interpolatedSQL (confirmPrompt (Name q) interpolatedSQL) 0
        else mkResult "" (confirmPrompt (Name q) interpolatedSQL +:+ "cancelled" +:+ LF) 1
      else mkResult interpolatedSQL "" 0
  end.

(** [for _, q := range queries { if q.Name == queryName { ... return } }]
    and the lines behind the loop. *)
Fixpoint lookup (confirm : bool) (config : Config) (response : string)
    (variables : gmap string string) (queryName : string) (queries : list Query)
    : result :=
  match queries with
  | [] => mkResult "" ("error: query '" +:+ queryName +:+ "' not found" +:+ LF) 1
  | q :: rest =>
      if String.eqb (Name q) queryName
      then output confirm config response variables q
      else lookup confirm config response variables queryName rest
  end.

(** "list all available queries". *)
Definition listing (queries : list Query) : string :=
  "available queries:" +:+ LF +:+
  String.concat "" (map (fun q => "  " +:+ Name q +:+ LF) queries).

Definition main (i : invocation) : result :=
  let config := match loadedConfig i with Some c => c | None => defaultConfig end in
  let filepath :=
    if String.eqb (fileFlag i) "" && (0 <? length (args i))
    then nth 0 (args i) "" else fileFlag i in
  let queryName :=
    if String.eqb (nameFlag i) "" && (1 <? length (args i))
    then nth 1 (args i) "" else nameFlag i in
  if String.eqb filepath "" then
    mkResult "" ("usage: sqlyac <filepath> [--name <queryname>]" +:+ LF) 0
  else if negb (HasSuffix filepath ".sql") then
    mkResult "" ("error: file must have .sql extension" +:+ LF) 1
  else
    match files i filepath with
    | inr reason =>
        mkResult "" ("error parsing sql: open " +:+ filepath +:+ ": " +:+ reason +:+ LF) 1
    | inl content =>
        match parseSQL content with
        | (_, _, Some e) =>
            mkResult "" ("error parsing sql: " +:+ errorText e +:+ LF) 1
        | (queries, variables, None) =>
            if String.eqb queryName "" then mkResult "" (listing queries) 0
            else lookup (confirmFlag i) config (response i) variables queryName queries
        end
    end.

End Main.

(** ** More notions for the statements *)

Definition isComment (line : string) : bool :=
  match classify line with Comment => true | _ => false end.

(** The file made of the given lines, each ended by a carriage return and
    a line feed. *)
Fixpoint fileOfCRLF (lines : list string) : string :=
  match lines with
  | [] => ""
  | l :: rest => l +:+ String (byte 13) LF +:+ fileOfCRLF rest
  end.

(** The table a sequence of definition lines builds, from the first line
    to the last. *)
Definition bind (table : gmap string string) (line : string) : gmap string string :=
  match classify line with
  | VariableDefinition varName varValue => <[varName := varValue]> table
  | _ => table
  end.

(** The configuration, the path and the name [main] works with. *)
Definition configOf (i : invocation) : Config :=
  match loadedConfig i with Some c => c | None => defaultConfig end.

Definition filepathOf (i : invocation) : string :=
  if String.eqb (fileFlag i) "" && (0 <? length (args i))
  then nth 0 (args i) "" else fileFlag i.

Definition queryNameOf (i : invocation) : string :=
  if String.eqb (nameFlag i) "" && (1 <? length (args i))
  then nth 1 (args i) "" else nameFlag i.

(** A file system with one file. *)
Definition oneFile (path content : string) : string -> string + string :=
  fun p => if String.eqb p path then inl content else inr "no such file or directory".

(** A file with two statements of the same name and a variable. *)
Definition sampleFile : string :=
  fileOf [ "SET @id = 7;";
           "---"; "-- @name Get"; "SELECT * FROM t WHERE id = @id;";
           "---"; "-- @name Drop"; "DROP TABLE t;";
           "---"; "-- @name Get"; "SELECT 2;" ].

(** * Properties *)

(** ** Strings *)

Lemma app_assoc_s (a b c : string) : (a +:+ b) +:+ c = a +:+ (b +:+ c).
Proof. induction a as [|x a IH]; simpl; [reflexivity | now rewrite IH]. Qed.

Lemma app_nil_r_s (a : string) : a +:+ "" = a.
Proof. induction a as [|x a IH]; simpl; [reflexivity | now rewrite IH]. Qed.

Lemma length_app_s (a b : string) :
  String.length (a +:+ b) = String.length a + String.length b.
Proof. induction a as [|x a IH]; simpl; [reflexivity | now rewrite IH]. Qed.

Lemma strip_prefix_app (p s : string) : strip_prefix p (p +:+ s) = Some s.
Proof.
  induction p as [|a p IH]; simpl; [reflexivity|].
  now rewrite Ascii.eqb_refl.
Qed.

Lemma strip_prefix_inv (p s s' : string) :
  strip_prefix p s = Some s' -> s = p +:+ s'.
Proof.
  revert s; induction p as [|a p IH]; intros s H; simpl in *.
  - now inversion H.
  - destruct s as [|b s]; [discriminate|].
    destruct (Ascii.eqb_spec a b) as [->|]; [|discriminate].
    now rewrite (IH _ H).
Qed.

Lemma HasPrefix_iff (s p : string) :
  HasPrefix s p = true <-> exists post, s = p +:+ post.
Proof.
  unfold HasPrefix; split.
  - destruct (strip_prefix p s) as [s'|] eqn:E; [|discriminate].
    intros _; exists s'; now apply strip_prefix_inv.
  - intros [post ->]; now rewrite strip_prefix_app.
Qed.

Lemma Contains_iff (s sub : string) :
  Contains s sub = true <-> occurs_in sub s.
Proof.
  unfold occurs_in; induction s as [|c s IH]; simpl.
  - rewrite orb_false_r, HasPrefix_iff; split.
    + intros [post E]; now exists "", post.
    + intros [pre [post E]]; destruct pre; [now exists post|discriminate].
  - rewrite orb_true_iff, HasPrefix_iff, IH; split.
    + intros [[post E]|[pre [post E]]].
      * now exists "", post.
      * exists (String c pre), post; simpl; now rewrite E.
    + intros [pre [post E]]; destruct pre as [|x pre]; simpl in E.
      * left; now exists post.
      * right; exists pre, post; now inversion E.
Qed.

(** ** The classifier *)

Lemma anyKeyword_iff (sql : string) (keywords : list string) :
  anyKeyword sql keywords = true <->
  exists keyword, In keyword keywords /\ occurs_in keyword sql.
Proof.
  induction keywords as [|k ks IH]; simpl.
  - split; [discriminate | now intros [? [[] _]]].
  - destruct (Contains sql k) eqn:E.
    + split; [|reflexivity]; intros _; exists k; split; [now left|].
      now apply Contains_iff.
    + rewrite IH; split.
      * intros [k' [Hin Hocc]]; exists k'; split; [now right | exact Hocc].
      * intros [k' [[->|Hin] Hocc]].
        -- apply Contains_iff in Hocc; congruence.
        -- now exists k'.
Qed.

(** C3. For every text, whatever the lower-casing function,
    [containsSchemaChanges] is true exactly when the lower-cased text
    contains one of the eleven schema keywords, and [containsUpdates] is
    true exactly when it contains one of [update ] and [delete ] (with the
    trailing space), [delete from] and [insert]. *)
Theorem classifier_keywords (ToLower : string -> string) (text : string) :
  (containsSchemaChanges ToLower text = true <->
   exists keyword,
     In keyword [ "drop table"; "drop database"; "drop schema";
                  "alter table"; "alter database"; "alter schema";
                  "create table"; "create database"; "create schema";
                  "truncate table"; "truncate" ]
     /\ occurs_in keyword (ToLower text))
  /\
  (containsUpdates ToLower text = true <->
   exists keyword,
     In keyword [ "update "; "delete "; "delete from"; "insert" ]
     /\ occurs_in keyword (ToLower text)).
Proof.
  split; [unfold containsSchemaChanges | unfold containsUpdates];
    apply anyKeyword_iff.
Qed.

(** ** Character runs *)

Lemma span_app (p : ascii -> bool) (s : string) :
  fst (span p s) +:+ snd (span p s) = s.
Proof.
  induction s as [|c s IH]; simpl; [reflexivity|].
  destruct (p c); [|reflexivity].
  destruct (span p s) as [a b]; simpl in *; now rewrite IH.
Qed.

Lemma span_every (p : ascii -> bool) (s : string) :
  every p (fst (span p s)) = true.
Proof.
  induction s as [|c s IH]; simpl; [reflexivity|].
  destruct (p c) eqn:E; [|reflexivity].
  destruct (span p s) as [a b]; simpl in *; now rewrite E.
Qed.

Lemma span_stop (p : ascii -> bool) (s : string) :
  starts_with p (snd (span p s)) = false.
Proof.
  induction s as [|c s IH]; simpl; [reflexivity|].
  destruct (p c) eqn:E; [|exact E].
  now destruct (span p s) as [a b].
Qed.

Lemma span_run (p : ascii -> bool) (a b : string) :
  every p a = true -> starts_with p b = false -> span p (a +:+ b) = (a, b).
Proof.
  intros Ha Hb; induction a as [|c a IH]; simpl in *.
  - destruct b as [|x b]; simpl in *; [reflexivity | now rewrite Hb].
  - apply andb_true_iff in Ha as [Hc Ha]; rewrite Hc, (IH Ha); reflexivity.
Qed.

Lemma span_length (p : ascii -> bool) (s : string) :
  String.length (snd (span p s)) <= String.length s.
Proof.
  rewrite <- (span_app p s) at 2; rewrite length_app_s; lia.
Qed.

Lemma substring_prefix (a b : string) :
  substring 0 (String.length a) (a +:+ b) = a.
Proof.
  induction a as [|c a IH]; simpl.
  - now destruct b.
  - now rewrite IH.
Qed.

Lemma consumed_app (a b : string) : consumed (a +:+ b) b = a.
Proof.
  unfold consumed; rewrite length_app_s.
  replace (String.length a + String.length b - String.length b)
    with (String.length a) by lia.
  apply substring_prefix.
Qed.

(** ** The matcher on character runs *)

Lemma star_greedy_longest (p : ascii -> bool) (s : string)
    (k : string -> option (string * list string)) (r : string * list string) :
  k (snd (span p s)) = Some r -> star_greedy p s k = Some r.
Proof.
  induction s as [|c s IH]; simpl; [easy|].
  destruct (p c); [|easy].
  destruct (span p s) as [a b]; simpl in *.
  intros H; now rewrite (IH H).
Qed.

(** ** The reference expression [@(\w+)] *)

Lemma run_ref_hit (n : nat) (w : ascii) (s : string) :
  re_word w = true ->
  run n variableRefRegex (String "@" (String w s)) [] accept =
  Some (snd (span re_word s), [String w (fst (span re_word s))]).
Proof.
  intros Hw; simpl; rewrite Hw.
  apply star_greedy_longest; unfold accept; simpl.
  do 3 f_equal.
  rewrite <- (span_app re_word s) at 1.
  exact (consumed_app (String w (fst (span re_word s))) _).
Qed.

Lemma run_ref_miss (n : nat) (s : string) :
  ref_starts s = false -> run n variableRefRegex s [] accept = None.
Proof.
  destruct s as [|c s]; simpl; [reflexivity|].
  rewrite (Ascii.eqb_sym "@" c).
  destruct (Ascii.eqb c "@"); simpl; [|reflexivity].
  destruct s as [|w s]; simpl; [reflexivity|].
  now intros ->.
Qed.

Lemma search_unfold (n : nat) (r : regex) (s : string) :
  search n r s =
  match run n r s [] accept with
  | Some (rest, caps) => Some (mkMatch "" (consumed s rest) rest caps)
  | None =>
      match s with
      | String c s' =>
          match search n r s' with
          | Some m => Some (mkMatch (String c (m_pre m)) (m_text m) (m_post m) (m_groups m))
          | None => None
          end
      | EmptyString => None
      end
  end.
Proof. destruct s; reflexivity. Qed.

Lemma search_ref_hit (n : nat) (w : ascii) (s : string) :
  re_word w = true ->
  search n variableRefRegex (String "@" (String w s)) =
  Some (mkMatch "" (String "@" (String w (fst (span re_word s))))
                (snd (span re_word s)) [String w (fst (span re_word s))]).
Proof.
  intros Hw; rewrite search_unfold, (run_ref_hit n w s Hw).
  do 2 f_equal.
  rewrite <- (span_app re_word s) at 1.
  exact (consumed_app (String "@" (String w (fst (span re_word s)))) _).
Qed.

Lemma search_ref_skip (n : nat) (c : ascii) (s : string) :
  ref_starts (String c s) = false ->
  search n variableRefRegex (String c s) =
  match search n variableRefRegex s with
  | Some m => Some (mkMatch (String c (m_pre m)) (m_text m) (m_post m) (m_groups m))
  | None => None
  end.
Proof. intros H; now rewrite search_unfold, (run_ref_miss n _ H). Qed.

Lemma search_ref_nil (n : nat) : search n variableRefRegex "" = None.
Proof. reflexivity. Qed.

Lemma ref_starts_true (s : string) :
  ref_starts s = true ->
  exists w s', s = String "@" (String w s') /\ re_word w = true.
Proof.
  destruct s as [|c [|w s']]; simpl; try discriminate.
  - now rewrite andb_false_r.
  - intros H; apply andb_true_iff in H as [Hc Hw].
    apply Ascii.eqb_eq in Hc as ->; now exists w, s'.
Qed.

(** What a match of [@(\w+)] looks like: the name is a non-empty run of
    word characters that cannot be extended. *)
Lemma search_ref_sound (n : nat) (s : string) (m : Match) :
  search n variableRefRegex s = Some m ->
  exists name,
    name <> "" /\ every re_word name = true /\
    starts_with re_word (m_post m) = false /\
    m_text m = "@" +:+ name /\ m_groups m = [name] /\
    s = m_pre m +:+ "@" +:+ name +:+ m_post m.
Proof.
  revert m; induction s as [|c s IH]; intros m H; [discriminate|].
  destruct (ref_starts (String c s)) eqn:E.
  - apply ref_starts_true in E as [w [s' [Es Hw]]].
    inversion Es; subst c s; clear Es.
    rewrite (search_ref_hit n w s' Hw) in H; inversion H; subst m; clear H; simpl.
    exists (String w (fst (span re_word s'))); repeat split.
    + discriminate.
    + simpl; now rewrite Hw, span_every.
    + apply span_stop.
    + simpl; now rewrite span_app.
  - rewrite (search_ref_skip n c s E) in H.
    destruct (search n variableRefRegex s) as [m'|]; [|discriminate].
    inversion H; subst m; clear H; simpl.
    destruct (IH m' eq_refl) as [name [H1 [H2 [H3 [H4 [H5 H6]]]]]].
    exists name; repeat split; try assumption.
    now rewrite H6 at 1.
Qed.

Lemma search_ref_context (n1 n2 : nat) (s : string) :
  search n1 variableRefRegex s = search n2 variableRefRegex s.
Proof.
  induction s as [|c s IH]; [reflexivity|].
  destruct (ref_starts (String c s)) eqn:E.
  - apply ref_starts_true in E as [w [s' [Es Hw]]]; rewrite Es.
    now rewrite !search_ref_hit.
  - now rewrite !search_ref_skip, IH.
Qed.

Lemma search_ref_shorter (n : nat) (s : string) (m : Match) :
  search n variableRefRegex s = Some m ->
  String.length (m_post m) < String.length s.
Proof.
  intros H; destruct (search_ref_sound n s m H) as [name [_ [_ [_ [_ [_ E]]]]]].
  rewrite E, !length_app_s; simpl; lia.
Qed.

Lemma replaceAll_S (f n : nat) (re : regex) (s : string) (repl : string -> string) :
  replaceAll (S f) n re s repl =
  match search n re s with
  | None => s
  | Some m => m_pre m +:+ repl (m_text m) +:+ replaceAll f n re (m_post m) repl
  end.
Proof. reflexivity. Qed.

(** Fuel beyond the length of the text makes no difference. *)
Lemma replaceAll_ref_fuel (repl : string -> string) (f1 : nat) :
  forall (f2 n1 n2 : nat) (s : string),
    String.length s < f1 -> String.length s < f2 ->
    replaceAll f1 n1 variableRefRegex s repl =
    replaceAll f2 n2 variableRefRegex s repl.
Proof.
  induction f1 as [|f1 IH]; intros f2 n1 n2 s H1 H2; [lia|].
  destruct f2 as [|f2]; [lia|]; rewrite !replaceAll_S.
  rewrite (search_ref_context n2 n1).
  destruct (search n1 variableRefRegex s) as [m|] eqn:E; [|reflexivity].
  apply search_ref_shorter in E.
  rewrite (IH f2 n1 n2); [reflexivity | lia | lia].
Qed.

Lemma ReplaceAll_ref_nil (repl : string -> string) :
  ReplaceAllStringFunc variableRefRegex "" repl = "".
Proof. reflexivity. Qed.

Lemma ReplaceAll_ref_skip (repl : string -> string) (c : ascii) (s : string) :
  ref_starts (String c s) = false ->
  ReplaceAllStringFunc variableRefRegex (String c s) repl =
  String c (ReplaceAllStringFunc variableRefRegex s repl).
Proof.
  intros H; unfold ReplaceAllStringFunc.
  rewrite replaceAll_S, (search_ref_skip _ c s H).
  cbn [String.length].
  rewrite replaceAll_S.
  rewrite (search_ref_context (S (String.length s)) (String.length s)).
  destruct (search (String.length s) variableRefRegex s) as [m|] eqn:E;
    [|reflexivity].
  apply search_ref_shorter in E.
  cbn [m_pre m_text m_post String.append]; do 3 f_equal.
  apply replaceAll_ref_fuel; lia.
Qed.

Lemma ReplaceAll_ref_hit (repl : string -> string) (w : ascii) (s : string) :
  re_word w = true ->
  ReplaceAllStringFunc variableRefRegex (String "@" (String w s)) repl =
  repl (String "@" (String w (fst (span re_word s)))) +:+
  ReplaceAllStringFunc variableRefRegex (snd (span re_word s)) repl.
Proof.
  intros H; unfold ReplaceAllStringFunc.
  rewrite replaceAll_S, (search_ref_hit _ w s H).
  cbn [m_pre m_text m_post String.append].
  f_equal; apply replaceAll_ref_fuel; pose proof (span_length re_word s);
    cbn [String.length]; lia.
Qed.

(** ** The matcher finds the matches of an expression, and nothing else *)

Lemma star_greedy_inv (p : ascii -> bool) (s : string)
    (k : string -> option (string * list string)) (x : string * list string) :
  star_greedy p s k = Some x ->
  exists a s', s = a +:+ s' /\ every p a = true /\ k s' = Some x.
Proof.
  induction s as [|c s IH]; simpl; [now exists "", ""|].
  destruct (p c) eqn:Hc; [|now exists "", (String c s)].
  destruct (star_greedy p s k) eqn:E.
  - intros H; inversion H; subst.
    destruct (IH eq_refl) as [a [s' [-> [Ha Hk]]]].
    exists (String c a), s'; simpl; now rewrite Hc, Ha.
  - now exists "", (String c s).
Qed.

Lemma star_lazy_inv (p : ascii -> bool) (s : string)
    (k : string -> option (string * list string)) (x : string * list string) :
  star_lazy p s k = Some x ->
  exists a s', s = a +:+ s' /\ every p a = true /\ k s' = Some x.
Proof.
  induction s as [|c s IH]; simpl.
  - destruct (k "") eqn:E; [|discriminate].
    intros H; inversion H; subst; now exists "", "".
  - destruct (k (String c s)) eqn:E.
    + intros H; inversion H; subst; now exists "", (String c s).
    + destruct (p c) eqn:Hc; [|discriminate].
      intros H; destruct (IH H) as [a [s' [-> [Ha Hk]]]].
      exists (String c a), s'; simpl; now rewrite Hc, Ha.
Qed.

Lemma star_greedy_some (p : ascii -> bool) (a s' : string)
    (k : string -> option (string * list string)) :
  every p a = true -> k s' <> None -> star_greedy p (a +:+ s') k <> None.
Proof.
  intros Ha Hk; induction a as [|c a IH]; simpl in *.
  - destruct s' as [|c s]; simpl; [exact Hk|].
    destruct (p c); [|exact Hk].
    now destruct (star_greedy p s k).
  - apply andb_true_iff in Ha as [Hc Ha]; rewrite Hc.
    specialize (IH Ha); now destruct (star_greedy p (a +:+ s') k).
Qed.

Lemma star_lazy_some (p : ascii -> bool) (a s' : string)
    (k : string -> option (string * list string)) :
  every p a = true -> k s' <> None -> star_lazy p (a +:+ s') k <> None.
Proof.
  intros Ha Hk; induction a as [|c a IH]; simpl in *.
  - destruct s' as [|c s]; simpl; now destruct (k _).
  - apply andb_true_iff in Ha as [Hc Ha].
    destruct (k (String c (a +:+ s'))); [discriminate|].
    rewrite Hc; now apply IH.
Qed.

Lemma run_sound (n : nat) (r : regex) :
  forall s caps k x,
    run n r s caps k = Some x ->
    exists s' caps', Matches n r s s' /\ k s' caps' = Some x.
Proof.
  induction r as [l|p|p|p|r IH|r1 IH1 r2 IH2|r1 IH1 r2 IH2| |];
    intros s caps k x H; simpl in *.
  - destruct (strip_prefix l s) as [s'|] eqn:E; [|discriminate].
    apply strip_prefix_inv in E as ->.
    exists s', caps; split; [constructor | exact H].
  - apply star_greedy_inv in H as [a [s' [-> [Ha H]]]].
    exists s', caps; split; [now constructor | exact H].
  - destruct s as [|c s]; [discriminate|]; simpl in H.
    destruct (p c) eqn:Hc; [|discriminate].
    apply star_greedy_inv in H as [a [s' [-> [Ha H]]]].
    exists s', caps; split; [|exact H].
    apply (M_Plus n p (String c a) s'); [discriminate | simpl; now rewrite Hc].
  - destruct s as [|c s]; [discriminate|]; simpl in H.
    destruct (p c) eqn:Hc; [|discriminate].
    apply star_lazy_inv in H as [a [s' [-> [Ha H]]]].
    exists s', caps; split; [|exact H].
    apply (M_LazyPlus n p (String c a) s'); [discriminate | simpl; now rewrite Hc].
  - destruct (IH _ _ _ _ H) as [s' [caps' [Hm Hk]]].
    eexists _, _; split; [constructor; exact Hm | exact Hk].
  - destruct (IH1 _ _ _ _ H) as [s1 [caps1 [M1 H1]]].
    destruct (IH2 _ _ _ _ H1) as [s2 [caps2 [M2 H2]]].
    exists s2, caps2; split; [econstructor; eassumption | exact H2].
  - destruct (run n r1 s caps k) eqn:E.
    + inversion H; subst.
      destruct (IH1 _ _ _ _ E) as [s' [caps' [Hm Hk]]].
      exists s', caps'; split; [now apply M_AltL | exact Hk].
    + destruct (IH2 _ _ _ _ H) as [s' [caps' [Hm Hk]]].
      exists s', caps'; split; [now apply M_AltR | exact Hk].
  - destruct (Nat.eqb_spec (String.length s) n); [|discriminate].
    exists s, caps; split; [now constructor | exact H].
  - destruct s; [|discriminate].
    exists "", caps; split; [constructor | exact H].
Qed.

Lemma run_complete (n : nat) (r : regex) (s s' : string) :
  Matches n r s s' ->
  forall caps k, (forall caps', k s' caps' <> None) -> run n r s caps k <> None.
Proof.
  induction 1 as [l s'|p a s' Ha|p a s' Hne Ha|p a s' Hne Ha|r s s' _ IH
                 |r1 r2 s s1 s2 _ IH1 _ IH2|r1 r2 s s' _ IH|r1 r2 s s' _ IH
                 |s Hs|];
    intros caps k Hk; simpl.
  - rewrite strip_prefix_app; apply Hk.
  - apply star_greedy_some; [exact Ha | apply Hk].
  - destruct a as [|c a]; [congruence|]; simpl in *.
    apply andb_true_iff in Ha as [Hc Ha]; rewrite Hc.
    apply star_greedy_some; [exact Ha | apply Hk].
  - destruct a as [|c a]; [congruence|]; simpl in *.
    apply andb_true_iff in Ha as [Hc Ha]; rewrite Hc.
    apply star_lazy_some; [exact Ha | apply Hk].
  - apply IH; intros caps'; apply Hk.
  - apply IH1; intros caps1; apply IH2, Hk.
  - specialize (IH caps k Hk); now destruct (run n r1 s caps k).
  - destruct (run n r1 s caps k); [discriminate | now apply IH].
  - rewrite Hs, Nat.eqb_refl; apply Hk.
  - apply Hk.
Qed.

(** [FindStringSubmatch] answers exactly when the text holds a match. *)
Lemma find_iff (r : regex) (s : string) :
  find r s <> None <->
  exists pre t t', s = pre +:+ t /\ Matches (String.length s) r t t'.
Proof.
  unfold find; generalize (String.length s); intros n; split.
  - induction s as [|c s IH]; rewrite search_unfold.
    + destruct (run n r "" [] accept) as [[rest caps]|] eqn:E; [|congruence].
      intros _; destruct (run_sound n r _ _ _ _ E) as [s' [_ [Hm _]]].
      now exists "", "", s'.
    + destruct (run n r (String c s) [] accept) as [[rest caps]|] eqn:E.
      * intros _; destruct (run_sound n r _ _ _ _ E) as [s' [_ [Hm _]]].
        now exists "", (String c s), s'.
      * destruct (search n r s) as [m|]; [|congruence].
        intros _; destruct IH as [pre [t [t' [-> Hm]]]]; [discriminate|].
        now exists (String c pre), t, t'.
  - intros [pre [t [t' [-> Hm]]]].
    induction pre as [|c pre IH]; cbn [String.append]; rewrite search_unfold.
    + pose proof (run_complete n r t t' Hm [] accept) as H.
      destruct (run n r t [] accept) as [[rest caps]|]; [discriminate|].
      exfalso; apply H; [intros caps'; discriminate | reflexivity].
    + destruct (run n r (String c (pre +:+ t)) [] accept) as [[rest caps]|];
        [discriminate|].
      now destruct (search n r (pre +:+ t)).
Qed.

Lemma span_before_stop (p : ascii -> bool) (x y : string) :
  starts_with p y = false ->
  span p (x +:+ y) = (fst (span p x), snd (span p x) +:+ y).
Proof.
  intros Hy; induction x as [|c x IH]; simpl.
  - destruct y as [|d y]; simpl in *; [reflexivity | now rewrite Hy].
  - destruct (p c); [|reflexivity].
    rewrite IH; now destruct (span p x).
Qed.

Lemma ref_starts_before_at (c : ascii) (x y : string) :
  ref_starts (String c (x +:+ String "@" y)) = ref_starts (String c x).
Proof. now destruct x. Qed.

(** Replacement is local to a token: the text before it and the text
    behind it are treated on their own. *)
Lemma ReplaceAll_ref_token (repl : string -> string) (name post : string) :
  name <> "" -> every re_word name = true -> starts_with re_word post = false ->
  forall pre,
    ReplaceAllStringFunc variableRefRegex (pre +:+ "@" +:+ name +:+ post) repl =
    ReplaceAllStringFunc variableRefRegex pre repl +:+ repl ("@" +:+ name) +:+
    ReplaceAllStringFunc variableRefRegex post repl.
Proof.
  intros Hne Hname Hpost pre.
  remember (String.length pre) as len eqn:Hlen.
  revert pre Hlen; induction len as [len IH] using lt_wf_ind; intros pre Hlen.
  destruct pre as [|c pre].
  - destruct name as [|w name]; [congruence|]; simpl in Hname.
    apply andb_true_iff in Hname as [Hw Hname].
    cbn [String.append]; rewrite (ReplaceAll_ref_hit repl w _ Hw).
    now rewrite (span_run re_word name post Hname Hpost).
  - cbn [String.append].
    destruct (ref_starts (String c pre)) eqn:E.
    + apply ref_starts_true in E as [w [pre' [Es Hw]]].
      inversion Es; subst c pre; clear Es.
      cbn [String.append]; rewrite !(ReplaceAll_ref_hit repl w _ Hw).
      rewrite (span_before_stop re_word pre' (String "@" (name +:+ post)) eq_refl).
      cbn [fst snd]; rewrite app_assoc_s; f_equal.
      apply (IH (String.length (snd (span re_word pre')))); [|reflexivity].
      pose proof (span_length re_word pre'); simpl in Hlen; lia.
    + rewrite (ReplaceAll_ref_skip repl c pre E), ReplaceAll_ref_skip
        by now rewrite ref_starts_before_at.
      cbn [String.append]; f_equal.
      apply (IH (String.length pre)); [simpl in Hlen; lia | reflexivity].
Qed.

Lemma ReplaceAll_ref_id (repl : string -> string) :
  (forall matched, repl matched = matched) ->
  forall (fuel n : nat) (s : string),
    replaceAll fuel n variableRefRegex s repl = s.
Proof.
  intros Hid fuel; induction fuel as [|fuel IH]; intros n s; [reflexivity|].
  rewrite replaceAll_S.
  destruct (search n variableRefRegex s) as [m|] eqn:E; [|reflexivity].
  destruct (search_ref_sound n s m E) as [name [_ [_ [_ [Ht [_ Es]]]]]].
  now rewrite Hid, IH, Ht, Es at 1.
Qed.

(** The name the function literal extracts from a token is the token
    without its [@]. *)
Lemma FindStringSubmatch_ref (name : string) :
  name <> "" -> every re_word name = true ->
  FindStringSubmatch variableRefRegex ("@" +:+ name) = Some ["@" +:+ name; name].
Proof.
  intros Hne Hname; destruct name as [|w name]; [congruence|]; simpl in Hname.
  apply andb_true_iff in Hname as [Hw Hname].
  unfold FindStringSubmatch, find; cbn [String.append].
  rewrite (search_ref_hit _ w name Hw).
  assert (Hs : span re_word name = (name, "")).
  { rewrite <- (app_nil_r_s name) at 1; now apply span_run. }
  now rewrite Hs.
Qed.

Lemma replacement_token (variables : gmap string string) (name : string) :
  name <> "" -> every re_word name = true ->
  replacement variables ("@" +:+ name) =
  match variables !! name with
  | Some value => value
  | None => "@" +:+ name
  end.
Proof.
  intros Hne Hname; unfold replacement.
  now rewrite (FindStringSubmatch_ref name Hne Hname).
Qed.

(** ** Interpolation *)

(** C10. With an empty variable table interpolation returns every text
    unchanged (and reports no error). *)
Theorem interpolate_empty_table (text : string) :
  interpolateVariables text ∅ = (text, None).
Proof.
  unfold interpolateVariables, ReplaceAllStringFunc; f_equal.
  apply ReplaceAll_ref_id; intros matched; unfold replacement.
  now rewrite lookup_empty.
Qed.

(** C2. A token [@name] -- [name] a run of word characters that the text
    behind it does not extend -- whose name is in the table is replaced by
    the stored value as it is, whatever the value contains: the output is
    the interpolation of the text before the token, the value, and the
    interpolation of the text behind the token; the value itself is not
    interpolated. *)
Theorem interpolate_substitutes (variables : gmap string string)
    (pre name post value : string) :
  name <> "" -> every re_word name = true -> starts_with re_word post = false ->
  variables !! name = Some value ->
  interpolateVariables (pre +:+ "@" +:+ name +:+ post) variables =
  (fst (interpolateVariables pre variables) +:+ value +:+
   fst (interpolateVariables post variables), None).
Proof.
  intros Hne Hname Hpost Hv; unfold interpolateVariables; cbn [fst]; f_equal.
  rewrite (ReplaceAll_ref_token _ name post Hne Hname Hpost).
  now rewrite (replacement_token variables name Hne Hname), Hv.
Qed.

(** C4. Interpolation reports no error on any text, and a token [@name]
    whose name has no entry in the table stays in the output as it is,
    between the interpolation of the text before it and the interpolation
    of the text behind it. *)
Theorem interpolate_keeps_unresolved (variables : gmap string string)
    (text pre name post : string) :
  name <> "" -> every re_word name = true -> starts_with re_word post = false ->
  variables !! name = None ->
  snd (interpolateVariables text variables) = None /\
  fst (interpolateVariables (pre +:+ "@" +:+ name +:+ post) variables) =
  fst (interpolateVariables pre variables) +:+ "@" +:+ name +:+
  fst (interpolateVariables post variables).
Proof.
  intros Hne Hname Hpost Hv; split; [reflexivity|].
  unfold interpolateVariables; cbn [fst].
  rewrite (ReplaceAll_ref_token _ name post Hne Hname Hpost).
  now rewrite (replacement_token variables name Hne Hname), Hv.
Qed.

(** ** The definition expression [SET\s+@(\w+)\s*=\s*(.+?)(?:;|$)] *)

Lemma run_Lit_app (n : nat) (l s : string) (caps : list string) (k : cont) :
  run n (Lit l) (l +:+ s) caps k = k s caps.
Proof. simpl; now rewrite strip_prefix_app. Qed.

Lemma run_Star_run (n : nat) (p : ascii -> bool) (a b : string)
    (caps : list string) (k : cont) (r : string * list string) :
  every p a = true -> starts_with p b = false ->
  k b caps = Some r -> run n (Star p) (a +:+ b) caps k = Some r.
Proof.
  intros Ha Hb Hk; simpl; apply star_greedy_longest.
  now rewrite (span_run p a b Ha Hb).
Qed.

Lemma run_Plus_run (n : nat) (p : ascii -> bool) (a b : string)
    (caps : list string) (k : cont) (r : string * list string) :
  a <> "" -> every p a = true -> starts_with p b = false ->
  k b caps = Some r -> run n (Plus p) (a +:+ b) caps k = Some r.
Proof.
  intros Hne Ha Hb Hk; destruct a as [|c a]; [congruence|].
  simpl in Ha; apply andb_true_iff in Ha as [Hc Ha].
  simpl; rewrite Hc; apply star_greedy_longest.
  now rewrite (span_run p a b Ha Hb).
Qed.

(** The non-greedy run stops at the first place where the rest of the
    expression matches. *)
Lemma star_lazy_first (p stop : ascii -> bool) (a b : string)
    (k : string -> option (string * list string)) (r : string * list string) :
  every (fun c => p c && negb (stop c)) a = true ->
  (forall c s, stop c = false -> k (String c s) = None) ->
  k b = Some r -> star_lazy p (a +:+ b) k = Some r.
Proof.
  intros Ha Hk Hb; induction a as [|c a IH]; simpl in *.
  - destruct b; simpl; now rewrite Hb.
  - apply andb_true_iff in Ha as [Hc Ha].
    apply andb_true_iff in Hc as [Hp Hs]; apply negb_true_iff in Hs.
    now rewrite (Hk c _ Hs), Hp, (IH Ha).
Qed.

Lemma space_not_word (c : ascii) : re_space c = true -> re_word c = false.
Proof.
  unfold re_space; rewrite !orb_true_iff, !Ascii.eqb_eq.
  intros [[[[->| ->]| ->]| ->]| ->]; reflexivity.
Qed.

Lemma starts_with_app (p : ascii -> bool) (a b : string) :
  a <> "" -> starts_with p (a +:+ b) = starts_with p a.
Proof. now destruct a. Qed.

Lemma not_word_after_space (ws rest : string) :
  every re_space ws = true -> starts_with re_word (ws +:+ "=" +:+ rest) = false.
Proof.
  destruct ws as [|c ws]; simpl; [reflexivity|].
  intros H; apply andb_true_iff in H as [Hc _]; now apply space_not_word.
Qed.

Lemma run_Seq (n : nat) (r1 r2 : regex) (s : string) (caps : list string) (k : cont) :
  run n (r1 ⋅ r2) s caps k = run n r1 s caps (fun s' caps' => run n r2 s' caps' k).
Proof. reflexivity. Qed.

Lemma run_Cap (n : nat) (r : regex) (s : string) (caps : list string) (k : cont) :
  run n (Cap r) s caps k =
  run n r s caps (fun s' caps' => k s' (caps' ++ [consumed s s'])).
Proof. reflexivity. Qed.

Lemma definitionSides_inv (ws1 name ws2 ws3 rhs : string) :
  definitionSides ws1 name ws2 ws3 rhs = true ->
  (ws1 <> "" /\ every re_space ws1 = true) /\
  (name <> "" /\ every re_word name = true) /\
  every re_space ws2 = true /\ every re_space ws3 = true /\
  exists c r, rhs = String c r /\ re_space c = false.
Proof.
  unfold definitionSides; rewrite !andb_true_iff, !negb_true_iff, !String.eqb_neq.
  intros [[[[[[[H1 H2] H3] H4] H5] H6] H7] H8]; repeat split; auto.
  destruct rhs as [|c r]; [congruence|]; now exists c, r.
Qed.

(** What a run of value characters stops at, in a line: the end or a
    semicolon. *)
Lemma span_value_stop (r : string) :
  every re_dot r = true ->
  snd (span valueChar r) = "" \/
  exists t, snd (span valueChar r) = String ";" t.
Proof.
  intros Hr.
  pose proof (span_stop valueChar r) as Hs.
  assert (Hd : every re_dot (snd (span valueChar r)) = true).
  { clear Hs; induction r as [|c r IH]; simpl in *; [reflexivity|].
    apply andb_true_iff in Hr as [Hc Hr].
    destruct (valueChar c).
    - specialize (IH Hr); now destruct (span valueChar r).
    - simpl; now rewrite Hc, Hr. }
  destruct (snd (span valueChar r)) as [|d t]; [now left | right].
  simpl in Hs, Hd; apply andb_true_iff in Hd as [Hd _].
  unfold valueChar in Hs; rewrite Hd in Hs; simpl in Hs.
  apply negb_false_iff, Ascii.eqb_eq in Hs as ->; now exists t.
Qed.

Lemma run_terminator_miss (n : nat) (c : ascii) (s : string) (caps : list string) :
  Ascii.eqb c ";" = false -> run n (Alt (Lit ";") Eol) (String c s) caps accept = None.
Proof. intros H; simpl; now rewrite Ascii.eqb_sym, H. Qed.

(** The expression matches a definition from its first character and
    captures the name and the value: the right-hand side from its first
    character up to the first semicolon behind it, or up to the end. *)
Lemma run_definition (n : nat) (ws1 name ws2 ws3 rhs : string) :
  definitionSides ws1 name ws2 ws3 rhs = true ->
  every re_dot rhs = true ->
  exists rest,
    run n variableRegex (definitionLine ws1 name ws2 ws3 rhs) [] accept =
    Some (rest, [name; valueOf rhs]).
Proof.
  intros H Hdot; apply definitionSides_inv in H
    as [[N1 W1] [[Nn Wn] [W2 [W3 [c [r [-> Hc]]]]]]].
  simpl in Hdot; apply andb_true_iff in Hdot as [Hdc Hdr].
  exists (match snd (span valueChar r) with String _ t => t | EmptyString => "" end).
  unfold variableRegex, definitionLine.
  rewrite run_Seq, run_Lit_app.
  rewrite run_Seq; apply run_Plus_run; [exact N1 | exact W1 | reflexivity |].
  rewrite run_Seq, run_Lit_app.
  rewrite run_Seq, run_Cap; apply run_Plus_run;
    [exact Nn | exact Wn | now apply not_word_after_space |].
  rewrite consumed_app.
  rewrite run_Seq; apply run_Star_run; [exact W2 | reflexivity |].
  rewrite run_Seq, run_Lit_app.
  rewrite run_Seq; apply run_Star_run; [exact W3 | exact Hc |].
  rewrite run_Seq, run_Cap.
  cbn [run one_then]; rewrite Hdc.
  rewrite <- (span_app valueChar r) at 1.
  apply (star_lazy_first re_dot (fun c => Ascii.eqb c ";"));
    [apply (span_every valueChar r)
    | intros d s Hd; now apply (run_terminator_miss n) |].
  cbn [valueOf app].
  replace (consumed (String c r) (snd (span valueChar r)))
    with (String c (fst (span valueChar r))).
  - destruct (span_value_stop r Hdr) as [->|[t ->]]; reflexivity.
  - rewrite <- (span_app valueChar r) at 2.
    change (String c (fst (span valueChar r) +:+ snd (span valueChar r)))
      with (String c (fst (span valueChar r)) +:+ snd (span valueChar r)).
    now rewrite consumed_app.
Qed.

(** Where no [S] stands no match starts. *)
Lemma run_definition_miss (n : nat) (c : ascii) (s : string) :
  Ascii.eqb c "S" = false -> run n variableRegex (String c s) [] accept = None.
Proof.
  intros H; unfold variableRegex; rewrite run_Seq; simpl.
  now rewrite Ascii.eqb_sym, H.
Qed.

(** A match that starts anywhere is found, or one further left is. *)
Lemma search_complete (n : nat) (r : regex) (s : string) (x : string * list string) :
  run n r s [] accept = Some x ->
  forall pre, search n r (pre +:+ s) <> None.
Proof.
  intros H pre; induction pre as [|c pre IH]; cbn [String.append];
    rewrite search_unfold.
  - rewrite H; now destruct x.
  - destruct (run n r (String c (pre +:+ s)) [] accept) as [[rest caps]|];
      [discriminate|].
    now destruct (search n r (pre +:+ s)).
Qed.

(** The match that starts at [rest] is found when none starts before. *)
Lemma search_leftmost (n : nat) (r : regex) (pre rest rest' : string)
    (caps : list string) :
  (forall p1 p2 s', pre = p1 +:+ p2 -> p2 <> "" -> ~ Matches n r (p2 +:+ rest) s') ->
  run n r rest [] accept = Some (rest', caps) ->
  search n r (pre +:+ rest) = Some (mkMatch pre (consumed rest rest') rest' caps).
Proof.
  intros Hpre Hrun; induction pre as [|c pre IH]; cbn [String.append];
    rewrite search_unfold.
  - now rewrite Hrun.
  - destruct (run n r (String c (pre +:+ rest)) [] accept) as [x|] eqn:E.
    + destruct (run_sound n r _ _ _ _ E) as [s' [_ [Hm _]]].
      exfalso; apply (Hpre "" (String c pre) s'); [reflexivity | discriminate | exact Hm].
    + rewrite IH; [reflexivity|].
      intros p1 p2 s' -> Hne; now apply (Hpre (String c p1) p2 s').
Qed.

Lemma noStart_leftmost (r : regex) (pre rest : string) :
  noStart (String.length (pre +:+ rest)) r pre rest = true -> leftmostAt r pre rest.
Proof.
  unfold leftmostAt; generalize (String.length (pre +:+ rest)); intros n.
  induction pre as [|c pre IH]; intros H p1 p2 s' E Hne Hm.
  - destruct p1; [|discriminate]; simpl in E; congruence.
  - simpl in H.
    destruct (run n r (String c (pre +:+ rest)) [] accept) as [x|] eqn:Er;
      [discriminate|].
    destruct p1 as [|d p1]; simpl in E.
    + subst p2; cbn [String.append] in Hm.
      apply (run_complete n r _ _ Hm [] accept); [intros; discriminate | exact Er].
    + injection E as _ E; now apply (IH H p1 p2 s').
Qed.

(** A line whose trimmed text holds a definition is a variable definition;
    when no match starts before that definition, the binding is its
    own. *)
Lemma classify_definition (line pre ws1 name ws2 ws3 rhs : string) :
  TrimSpace line = pre +:+ definitionLine ws1 name ws2 ws3 rhs ->
  definitionSides ws1 name ws2 ws3 rhs = true ->
  every re_dot rhs = true ->
  leftmostAt variableRegex pre (definitionLine ws1 name ws2 ws3 rhs) ->
  classify line = VariableDefinition name (TrimSpace (valueOf rhs)).
Proof.
  intros Hline Hsides Hdot Hleft; unfold classify, FindStringSubmatch, find.
  rewrite Hline.
  destruct (run_definition (String.length (pre +:+ definitionLine ws1 name ws2 ws3 rhs))
              ws1 name ws2 ws3 rhs Hsides Hdot) as [rest Hrun].
  now rewrite (search_leftmost _ _ pre _ rest _ Hleft Hrun).
Qed.

Lemma classify_definition_anywhere (line pre ws1 name ws2 ws3 rhs : string) :
  TrimSpace line = pre +:+ definitionLine ws1 name ws2 ws3 rhs ->
  definitionSides ws1 name ws2 ws3 rhs = true ->
  every re_dot rhs = true ->
  exists varName varValue, classify line = VariableDefinition varName varValue.
Proof.
  intros Hline Hsides Hdot; unfold classify, FindStringSubmatch, find.
  rewrite Hline.
  destruct (run_definition (String.length (pre +:+ definitionLine ws1 name ws2 ws3 rhs))
              ws1 name ws2 ws3 rhs Hsides Hdot) as [rest Hrun].
  pose proof (search_complete _ variableRegex _ _ Hrun pre) as H.
  destruct (search _ variableRegex _) as [m|]; [|congruence].
  now eexists _, _.
Qed.

(** ** Indexing the result of [FindStringSubmatch]

    [matches[1]] and [matches[2]] never fall outside the slice: a match
    comes with one entry per group. *)

Lemma run_groups (n : nat) (r : regex) :
  flatAlternatives r = true ->
  forall s caps k x,
    run n r s caps k = Some x ->
    exists s' caps',
      k s' caps' = Some x /\ length caps' = length caps + groups r.
Proof.
  induction r as [l|p|p|p|r IH|r1 IH1 r2 IH2|r1 IH1 r2 IH2| |];
    intros Hflat s caps k x H; simpl in *.
  - destruct (strip_prefix l s) as [s'|]; [|discriminate].
    exists s', caps; split; [exact H | lia].
  - apply star_greedy_inv in H as [_ [s' [_ [_ H]]]].
    exists s', caps; split; [exact H | lia].
  - destruct s as [|c s]; [discriminate|]; simpl in H.
    destruct (p c); [|discriminate].
    apply star_greedy_inv in H as [_ [s' [_ [_ H]]]].
    exists s', caps; split; [exact H | lia].
  - destruct s as [|c s]; [discriminate|]; simpl in H.
    destruct (p c); [|discriminate].
    apply star_lazy_inv in H as [_ [s' [_ [_ H]]]].
    exists s', caps; split; [exact H | lia].
  - destruct (IH Hflat _ _ _ _ H) as [s' [caps' [Hk Hl]]].
    eexists _, _; split; [exact Hk|].
    rewrite length_app; simpl; lia.
  - apply andb_true_iff in Hflat as [F1 F2].
    destruct (IH1 F1 _ _ _ _ H) as [s1 [caps1 [H1 L1]]].
    destruct (IH2 F2 _ _ _ _ H1) as [s2 [caps2 [H2 L2]]].
    exists s2, caps2; split; [exact H2 | lia].
  - rewrite !andb_true_iff, !Nat.eqb_eq in Hflat.
    destruct Hflat as [[[G1 G2] F1] F2].
    destruct (run n r1 s caps k) eqn:E.
    + inversion H; subst.
      destruct (IH1 F1 _ _ _ _ E) as [s' [caps' [Hk Hl]]].
      exists s', caps'; split; [exact Hk | lia].
    + destruct (IH2 F2 _ _ _ _ H) as [s' [caps' [Hk Hl]]].
      exists s', caps'; split; [exact Hk | lia].
  - destruct (String.length s =? n); [|discriminate].
    exists s, caps; split; [exact H | lia].
  - destruct s; [|discriminate].
    exists "", caps; split; [exact H | lia].
Qed.

Lemma search_groups (n : nat) (r : regex) (s : string) (m : Match) :
  flatAlternatives r = true ->
  search n r s = Some m -> length (m_groups m) = groups r.
Proof.
  intros Hflat; revert m; induction s as [|c s IH]; intros m;
    rewrite search_unfold.
  - destruct (run n r "" [] accept) as [[rest caps]|] eqn:E; [|discriminate].
    intros H; inversion H; subst; simpl.
    destruct (run_groups n r Hflat _ _ _ _ E) as [s' [caps' [Hk Hl]]].
    now inversion Hk; subst.
  - destruct (run n r (String c s) [] accept) as [[rest caps]|] eqn:E.
    + intros H; inversion H; subst; simpl.
      destruct (run_groups n r Hflat _ _ _ _ E) as [s' [caps' [Hk Hl]]].
      now inversion Hk; subst.
    + destruct (search n r s) as [m'|]; [|discriminate].
      intros H; inversion H; subst; simpl; now apply IH.
Qed.

Lemma FindStringSubmatch_length (r : regex) (s : string) (matches : list string) :
  flatAlternatives r = true ->
  FindStringSubmatch r s = Some matches -> length matches = S (groups r).
Proof.
  unfold FindStringSubmatch, find; intros Hflat.
  destruct (search _ r s) as [m|] eqn:E; [|discriminate].
  intros H; inversion H; subst; simpl.
  now rewrite (search_groups _ r s m Hflat E).
Qed.

Lemma indices_in_range (s : string) (matches : list string) :
  (FindStringSubmatch variableRegex s = Some matches -> length matches = 3) /\
  (FindStringSubmatch nameRegex s = Some matches -> length matches = 2) /\
  (FindStringSubmatch variableRefRegex s = Some matches -> length matches = 2).
Proof. repeat split; now apply FindStringSubmatch_length. Qed.

(** The function literal of [interpolateVariables] is only called on a
    match of [@(\w+)], and the expression matches that text again. *)
Lemma replacement_rematches (n : nat) (s : string) (m : Match) :
  search n variableRefRegex s = Some m ->
  FindStringSubmatch variableRefRegex (m_text m) = Some (m_text m :: m_groups m).
Proof.
  intros H; destruct (search_ref_sound n s m H)
    as [name [H1 [H2 [_ [H4 [H5 _]]]]]].
  rewrite H4, H5; now apply FindStringSubmatch_ref.
Qed.

(** ** Annotation names *)

(** The name an annotation gives is a non-empty run of word characters. *)
Lemma run_name_sound (n : nat) (s rest : string) (caps : list string) :
  run n nameRegex s [] accept = Some (rest, caps) ->
  exists name, caps = [name] /\ name <> "" /\ every re_word name = true.
Proof.
  unfold nameRegex; cbn [run].
  destruct (strip_prefix "--" s) as [s1|]; [|discriminate].
  intros H; apply star_greedy_inv in H as [_ [s2 [_ [_ H]]]].
  cbv beta in H.
  destruct (strip_prefix "@name" s2) as [s3|]; [|discriminate].
  apply star_greedy_inv in H as [_ [s4 [_ [_ H]]]].
  destruct s4 as [|c s5]; [discriminate|]; cbn [one_then] in H.
  destruct (re_word c) eqn:Hc; [|discriminate].
  apply star_greedy_inv in H as [a [s6 [-> [Ha H]]]].
  inversion H; subst; clear H.
  exists (String c a); repeat split.
  - f_equal; exact (consumed_app (String c a) rest).
  - discriminate.
  - simpl; now rewrite Hc, Ha.
Qed.

Lemma search_name_sound (n : nat) (s : string) (m : Match) :
  search n nameRegex s = Some m ->
  exists name, m_groups m = [name] /\ name <> "" /\ every re_word name = true.
Proof.
  revert m; induction s as [|c s IH]; intros m; rewrite search_unfold.
  - destruct (run n nameRegex "" [] accept) as [[rest caps]|] eqn:E;
      [|discriminate].
    intros H; inversion H; subst; exact (run_name_sound n "" rest caps E).
  - destruct (run n nameRegex (String c s) [] accept) as [[rest caps]|] eqn:E.
    + intros H; inversion H; subst; exact (run_name_sound n _ rest caps E).
    + destruct (search n nameRegex s) as [m'|]; [|discriminate].
      intros H; inversion H; subst; simpl; now apply IH.
Qed.

Lemma annotation_name (line name : string) :
  classify line = Annotation name -> name <> "" /\ every re_word name = true.
Proof.
  unfold classify.
  destruct (FindStringSubmatch variableRegex (TrimSpace line)); [discriminate|].
  destruct (MatchString separatorRegex (TrimSpace line)); [discriminate|].
  unfold FindStringSubmatch, find.
  destruct (search _ nameRegex line) as [m|] eqn:E.
  - destruct (search_name_sound _ _ _ E) as [nm [Hg [Hne Hw]]].
    rewrite Hg; intros H; inversion H; subst; now split.
  - now destruct (HasPrefix (TrimSpace line) "--").
Qed.

Lemma lastAnnotation_named (lines : list string) (name : string) :
  name <> "" -> lastAnnotation lines name <> "".
Proof.
  revert name; induction lines as [|l lines IH]; intros name H; [exact H|].
  simpl; apply IH.
  destruct (classify l) eqn:E; try exact H.
  now apply (annotation_name l).
Qed.

(** A block has a name exactly when one of its lines is an annotation. *)
Lemma named_annotated (b : block) : named b = annotated b.
Proof.
  unfold named, annotated, blockName.
  generalize (body b); intros lines.
  induction lines as [|l lines IH]; [reflexivity|].
  cbn [lastAnnotation existsb]; unfold isAnnotation at 1.
  destruct (classify l) as [n v| |n| |] eqn:E; try exact IH.
  simpl; apply negb_true_iff, String.eqb_neq, lastAnnotation_named.
  now apply (annotation_name l).
Qed.

(** ** What a definition binds *)

(** The non-greedy run is the shortest one behind which the rest of the
    expression matches. *)
Lemma star_lazy_shortest (p : ascii -> bool) (s : string)
    (k : string -> option (string * list string)) (x : string * list string) :
  star_lazy p s k = Some x ->
  exists a s',
    s = a +:+ s' /\ every p a = true /\ k s' = Some x /\
    forall a1 a2, a = a1 +:+ a2 -> a2 <> "" -> k (a2 +:+ s') = None.
Proof.
  induction s as [|c s IH]; simpl.
  - destruct (k "") eqn:E; [|discriminate].
    intros H; inversion H; subst; exists "", ""; repeat split; auto.
    intros [|? ?] [|? ?]; simpl; congruence.
  - destruct (k (String c s)) eqn:E.
    + intros H; inversion H; subst; exists "", (String c s); repeat split; auto.
      intros [|? ?] [|? ?]; simpl; congruence.
    + destruct (p c) eqn:Hc; [|discriminate].
      intros H; destruct (IH H) as [a [s' [-> [Ha [Hk Hmin]]]]].
      exists (String c a), s'; repeat split; auto.
      * simpl; now rewrite Hc, Ha.
      * intros [|c1 a1] a2 Hsplit Hne; simpl in Hsplit.
        -- now subst a2.
        -- inversion Hsplit; subst; now apply (Hmin a1 a2).
Qed.

Lemma terminator_at_semicolon (n : nat) (s : string) (caps : list string) :
  run n (Alt (Lit ";") Eol) (String ";" s) caps accept = Some (s, caps).
Proof. reflexivity. Qed.

Lemma no_semicolon (a s' : string) (k : string -> option (string * list string)) :
  (forall t, k (String ";" t) <> None) ->
  (forall a1 a2, a = a1 +:+ a2 -> a2 <> "" -> k (a2 +:+ s') = None) ->
  every (fun c => negb (Ascii.eqb c ";")) a = true.
Proof.
  intros Hsemi Hmin; induction a as [|c a IH]; [reflexivity|]; simpl.
  apply andb_true_iff; split.
  - destruct (Ascii.eqb_spec c ";") as [->|]; [|reflexivity].
    exfalso; apply (Hsemi (a +:+ s')).
    apply (Hmin "" (String ";" a)); [reflexivity | discriminate].
  - apply IH; intros a1 a2 -> Hne.
    apply (Hmin (String c a1) a2); [reflexivity | exact Hne].
Qed.

(** A match of the definition expression captures a name, a non-empty run
    of word characters, and a value: one character that is no line feed,
    then characters that are neither line feed nor semicolon, up to a
    semicolon or the end of the text. *)
Lemma run_definition_sound (n : nat) (s rest : string) (caps : list string) :
  run n variableRegex s [] accept = Some (rest, caps) ->
  exists name c a,
    caps = [name; String c a] /\
    name <> "" /\ every re_word name = true /\
    re_dot c = true /\ every valueChar a = true.
Proof.
  unfold variableRegex; cbn [run].
  destruct (strip_prefix "SET" s) as [s1|]; [|discriminate].
  destruct s1 as [|c1 s1]; [discriminate|]; cbn [one_then].
  destruct (re_space c1); [|discriminate].
  intros H; apply star_greedy_inv in H as [_ [s2 [_ [_ H]]]]; cbv beta in H.
  destruct (strip_prefix "@" s2) as [s3|]; [|discriminate].
  destruct s3 as [|w s3]; [discriminate|]; cbn [one_then] in H.
  destruct (re_word w) eqn:Hw; [|discriminate].
  apply star_greedy_inv in H as [nm [s4 [-> [Hnm H]]]]; cbv beta in H.
  change (String w (nm +:+ s4)) with (String w nm +:+ s4) in H.
  rewrite consumed_app in H.
  apply star_greedy_inv in H as [_ [s5 [_ [_ H]]]]; cbv beta in H.
  destruct (strip_prefix "=" s5) as [s6|]; [|discriminate].
  apply star_greedy_inv in H as [_ [s7 [_ [_ H]]]]; cbv beta in H.
  destruct s7 as [|c s7]; [discriminate|]; cbn [one_then] in H.
  destruct (re_dot c) eqn:Hc; [|discriminate].
  match type of H with star_lazy _ _ ?f = _ => set (k := f) in H end.
  apply star_lazy_shortest in H as [a [s8 [-> [Ha [H Hmin]]]]].
  assert (Hsemi : every (fun d => negb (Ascii.eqb d ";")) a = true).
  { apply (no_semicolon a s8 k); [|exact Hmin].
    intros t; unfold k; simpl; discriminate. }
  unfold k in H; cbv beta in H.
  change (String c (a +:+ s8)) with (String c a +:+ s8) in H.
  rewrite consumed_app in H.
  assert (Hcaps : caps = [String w nm; String c a]).
  { destruct (strip_prefix ";" s8); [now inversion H|].
    destruct s8; [now inversion H | discriminate]. }
  exists (String w nm), c, a.
  split; [exact Hcaps|]; split; [discriminate|].
  split; [simpl; now rewrite Hw, Hnm|]; split; [exact Hc|].
  clear -Ha Hsemi; induction a as [|d a IH]; [reflexivity|]; simpl in *.
  apply andb_true_iff in Ha as [Hd Ha].
  apply andb_true_iff in Hsemi as [Hs Hsemi].
  rewrite (IH Ha Hsemi); unfold valueChar; now rewrite Hd, Hs.
Qed.

Lemma search_definition_sound (n : nat) (s : string) (m : Match) :
  search n variableRegex s = Some m ->
  exists name c a,
    m_groups m = [name; String c a] /\
    name <> "" /\ every re_word name = true /\
    re_dot c = true /\ every valueChar a = true.
Proof.
  revert m; induction s as [|c s IH]; intros m; rewrite search_unfold.
  - destruct (run n variableRegex "" [] accept) as [[rest caps]|] eqn:E;
      [|discriminate].
    intros H; inversion H; subst; exact (run_definition_sound n _ rest caps E).
  - destruct (run n variableRegex (String c s) [] accept) as [[rest caps]|] eqn:E.
    + intros H; inversion H; subst; exact (run_definition_sound n _ rest caps E).
    + destruct (search n variableRegex s) as [m'|]; [|discriminate].
      intros H; inversion H; subst; simpl; now apply IH.
Qed.

(** Whatever the line, the binding of a variable definition has a name of
    word characters and the trimmed text of a value that stops before the
    first semicolon behind its first character. *)
Lemma definition_binding (line varName varValue : string) :
  classify line = VariableDefinition varName varValue ->
  varName <> "" /\ every re_word varName = true /\
  exists c a,
    varValue = TrimSpace (String c a) /\
    re_dot c = true /\ every valueChar a = true.
Proof.
  unfold classify, FindStringSubmatch, find.
  destruct (search _ variableRegex (TrimSpace line)) as [m|] eqn:E.
  - destruct (search_definition_sound _ _ _ E)
      as [name [c [a [Hg [Hne [Hw [Hc Ha]]]]]]].
    rewrite Hg; intros H; inversion H; subst; repeat split; auto.
    now exists c, a.
  - destruct (MatchString separatorRegex (TrimSpace line)); [discriminate|].
    destruct (search _ nameRegex line); [discriminate|].
    now destruct (HasPrefix (TrimSpace line) "--").
Qed.

(** ** The scanner *)

Lemma parseSQL_lines (content : string) :
  parseSQL content = (parseLines (fst (Scan content)), snd (Scan content)).
Proof. unfold parseSQL; now destruct (Scan content). Qed.

Lemma rawLines_line (l rest : string) :
  every (fun c => negb (is_byte 10 c)) l = true ->
  rawLines (l +:+ LF +:+ rest) = l :: rawLines rest.
Proof.
  intros H; induction l as [|c l IH]; [reflexivity|].
  simpl in H; apply andb_true_iff in H as [Hc Hl].
  apply negb_true_iff in Hc.
  cbn [String.append rawLines]; now rewrite Hc, (IH Hl).
Qed.

(** Scanning a file gives back the lines it was written from. *)
Lemma Scan_fileOf (lines : list string) :
  forallb plainLine lines = true -> Scan (fileOf lines) = (lines, None).
Proof.
  unfold Scan; induction lines as [|l lines IH]; [reflexivity|].
  cbn [forallb fileOf]; unfold plainLine at 1.
  rewrite !andb_true_iff, negb_true_iff.
  intros [[[Hlf Hcr] Hlen] Hrest].
  rewrite (rawLines_line l _ Hlf); cbn [scanTokens].
  rewrite Hlen, (IH Hrest); f_equal; f_equal.
  unfold dropCR; destruct (String.rev l) as [|c r]; [reflexivity|].
  apply negb_true_iff in Hcr; now rewrite Hcr.
Qed.

(** ** The loop of [parseSQL] *)

Lemma step_classify (st : state) (line : string) :
  step st line =
  match classify line with
  | VariableDefinition varName varValue =>
      mkState (queries st) (currentQuery st) (sqlLines st)
              (<[varName := varValue]> (variables st))
  | Delimiter => mkState (saved st) (Some (mkQuery "" "")) [] (variables st)
  | Annotation name =>
      match currentQuery st with
      | Some q => mkState (queries st) (Some (mkQuery name (SQL q)))
                          (sqlLines st) (variables st)
      | None => st
      end
  | Comment => st
  | Content =>
      match currentQuery st with
      | Some _ => mkState (queries st) (currentQuery st) (sqlLines st ++ [line])
                          (variables st)
      | None => st
      end
  end.
Proof.
  unfold step, classify.
  destruct (FindStringSubmatch variableRegex (TrimSpace line)); [reflexivity|].
  destruct (MatchString separatorRegex (TrimSpace line)); [reflexivity|].
  destruct (FindStringSubmatch nameRegex line); [reflexivity|].
  now destruct (HasPrefix (TrimSpace line) "--").
Qed.

Lemma loop_app (st : state) (l1 l2 : list string) :
  loop st (l1 ++ l2) = loop (loop st l1) l2.
Proof. apply fold_left_app. Qed.

Lemma loop_cons (st : state) (l : string) (ls : list string) :
  loop st (l :: ls) = loop (step st l) ls.
Proof. reflexivity. Qed.

(** The variable table has no influence on the statements: the rest of the
    state evolves as a function of itself and the line. *)
Lemma forget_step (st : state) (line : string) :
  forget (step st line) =
  if isDefinition line then forget st else Earlier.step (forget st) line.
Proof.
  unfold isDefinition, step, classify, Earlier.step, forget.
  destruct (FindStringSubmatch variableRegex (TrimSpace line)); [reflexivity|].
  destruct (MatchString separatorRegex (TrimSpace line)); [reflexivity|].
  destruct (FindStringSubmatch nameRegex line);
    [destruct st as [qs [q|] ls vs]; reflexivity|].
  destruct (HasPrefix (TrimSpace line) "--"); [reflexivity|].
  destruct st as [qs [q|] ls vs]; reflexivity.
Qed.

Lemma saved_forget (st : state) : saved st = Earlier.saved (forget st).
Proof. reflexivity. Qed.

Lemma forget_loop (lines : list string) :
  forall st1 st2, forget st1 = forget st2 ->
  forget (loop st1 lines) = forget (loop st2 lines).
Proof.
  induction lines as [|l lines IH]; intros st1 st2 H; [exact H|].
  rewrite !loop_cons; apply IH; now rewrite !forget_step, H.
Qed.

Lemma forget_loop_earlier (lines : list string) :
  Forall (fun l => isDefinition l = false) lines ->
  forall st, forget (loop st lines) = Earlier.loop (forget st) lines.
Proof.
  induction 1 as [|l lines Hl _ IH]; intros st; [reflexivity|].
  rewrite loop_cons, IH, forget_step, Hl; reflexivity.
Qed.

Lemma isDefinition_false (line : string) :
  isDefinition line = false <->
  FindStringSubmatch variableRegex (TrimSpace line) = None.
Proof.
  unfold isDefinition, classify.
  destruct (FindStringSubmatch variableRegex (TrimSpace line)).
  - split; discriminate.
  - split; [reflexivity|]; intros _.
    destruct (MatchString separatorRegex (TrimSpace line)); [reflexivity|].
    destruct (FindStringSubmatch nameRegex line); [reflexivity|].
    now destruct (HasPrefix (TrimSpace line) "--").
Qed.

(** Lines of a block: the name follows the annotations, the content lines
    are collected, the statements found so far stay. *)
Lemma loop_body (lines : list string) :
  Forall (fun l => isDelimiter l = false) lines ->
  forall qs q ls vs,
  exists vs',
    loop (mkState qs (Some q) ls vs) lines =
    mkState qs (Some (mkQuery (lastAnnotation lines (Name q)) (SQL q)))
            (ls ++ contentLines lines) vs'.
Proof.
  induction 1 as [|l lines Hl _ IH]; intros qs q ls vs.
  - exists vs; simpl; rewrite app_nil_r; now destruct q.
  - rewrite loop_cons, step_classify; unfold contentLines; simpl.
    unfold isDelimiter, isContent in *.
    destruct (classify l) as [n v| |n| |]; try discriminate; simpl.
    + apply IH.
    + destruct (IH qs (mkQuery n (SQL q)) ls vs) as [vs' E]; now exists vs'.
    + apply IH.
    + destruct (IH qs q (ls ++ [l]) vs) as [vs' E]; exists vs'.
      now rewrite E, <- app_assoc.
Qed.

(** Lines before the first delimiter line leave no trace but variables. *)
Lemma loop_preamble (lines : list string) :
  Forall (fun l => isDelimiter l = false) lines ->
  forall vs, exists vs', loop (mkState [] None [] vs) lines = mkState [] None [] vs'.
Proof.
  induction 1 as [|l lines Hl _ IH]; intros vs; [now exists vs|].
  rewrite loop_cons, step_classify; unfold isDelimiter in Hl.
  destruct (classify l) as [n v| |n| |]; try discriminate; simpl; apply IH.
Qed.

Lemma saved_block (b : block) (st : state) :
  isBlock b ->
  saved (loop st (linesOf b)) =
  saved st ++ (if named b then [statementOf b] else []).
Proof.
  intros [Ho Hb]; unfold linesOf; rewrite loop_cons, step_classify.
  unfold isDelimiter in Ho.
  destruct (classify (opener b)); try discriminate.
  destruct (loop_body (body b) Hb (saved st) (mkQuery "" "") [] (variables st))
    as [vs' ->].
  unfold saved at 1, named, statementOf, blockName, blockText; simpl.
  destruct (lastAnnotation (body b) "" =? "")%string; simpl;
    [now rewrite app_nil_r | reflexivity].
Qed.

Lemma saved_blocks (blocks : list block) :
  Forall isBlock blocks ->
  forall st,
    saved (loop st (flat_map linesOf blocks)) =
    saved st ++ map statementOf (List.filter named blocks).
Proof.
  induction 1 as [|b blocks Hb _ IH]; intros st.
  - simpl; now rewrite app_nil_r.
  - cbn [flat_map List.filter]; rewrite loop_app, IH, (saved_block b st Hb).
    destruct (named b); simpl; [now rewrite <- app_assoc | now rewrite app_nil_r].
Qed.

(** C1 (as amended). Lines before the first delimiter line give no
    statement.  Behind them, every block that a delimiter line opens and
    that carries an annotation gives one statement, named by its last
    annotation, whose text is the trimmed join of its content lines; the
    statements come in the order of the blocks, so N annotated blocks give
    exactly N statements. *)
Theorem blocks_in_order (content : string) (preamble : list string)
    (blocks : list block) :
  fst (Scan content) = preamble ++ flat_map linesOf blocks ->
  Forall (fun l => isDelimiter l = false) preamble ->
  Forall isBlock blocks ->
  fst (fst (parseSQL content)) =
  map (fun b => mkQuery (blockName b) (TrimSpace (Join (contentLines (body b)) LF)))
      (List.filter annotated blocks).
Proof.
  intros Hscan Hp Hb; rewrite parseSQL_lines, Hscan.
  unfold parseLines; cbn [fst].
  rewrite loop_app.
  destruct (loop_preamble preamble Hp ∅) as [vs' E].
  unfold initial; rewrite E, (saved_blocks blocks Hb); cbn [saved currentQuery queries app].
  f_equal; apply filter_ext; intros b; apply named_annotated.
Qed.

(** ** Statements have names *)

Lemma saved_named (st : state) :
  Forall (fun q => Name q <> "") (queries st) ->
  Forall (fun q => Name q <> "") (saved st).
Proof.
  intros H; unfold saved.
  destruct (currentQuery st) as [q|]; [|exact H].
  destruct (String.eqb_spec (Name q) ""); simpl; [exact H|].
  apply Forall_app; split; [exact H|].
  now constructor.
Qed.

Lemma step_named (st : state) (line : string) :
  Forall (fun q => Name q <> "") (queries st) ->
  Forall (fun q => Name q <> "") (queries (step st line)).
Proof.
  intros H; rewrite step_classify.
  destruct (classify line); simpl; try exact H.
  - now apply saved_named.
  - now destruct (currentQuery st).
  - now destruct (currentQuery st).
Qed.

Lemma loop_named (lines : list string) :
  forall st,
    Forall (fun q => Name q <> "") (queries st) ->
    Forall (fun q => Name q <> "") (queries (loop st lines)).
Proof.
  induction lines as [|l lines IH]; intros st H; [exact H|].
  rewrite loop_cons; apply IH; now apply step_named.
Qed.

Lemma loop_unnamed (lines : list string) :
  Forall (fun l => isDelimiter l = false /\ isAnnotation l = false) lines ->
  forall st,
    queries (loop st lines) = queries st /\
    currentQuery (loop st lines) = currentQuery st.
Proof.
  induction 1 as [|l lines [Hd Ha] _ IH]; intros st; [now split|].
  rewrite loop_cons; destruct (IH (step st l)) as [-> ->].
  rewrite step_classify; unfold isDelimiter, isAnnotation in *.
  destruct (classify l); try discriminate; simpl; try (now split).
  destruct st as [qs [q|] ls vs]; now split.
Qed.

(** C5. Every statement [parseSQL] returns has a non-empty name; a block
    without annotation gives no statement: closed by a delimiter line, the
    statements are those of the file without the block, and closed by the
    end of the file, those of the file that ends before the block. *)
Theorem unnamed_block_dropped (before body after : list string) (d d' : string) :
  isDelimiter d = true -> isDelimiter d' = true ->
  Forall (fun l => isDelimiter l = false /\ isAnnotation l = false) body ->
  (forall content q, In q (fst (fst (parseSQL content))) -> Name q <> "") /\
  fst (parseLines (before ++ d :: body ++ d' :: after)) =
    fst (parseLines (before ++ d :: after)) /\
  fst (parseLines (before ++ d :: body)) = fst (parseLines before).
Proof.
  intros Hd Hd' Hbody; repeat split.
  - intros content q; unfold parseSQL.
    destruct (Scan content) as [lines err]; unfold parseLines; cbn [fst].
    intros Hin.
    assert (F : Forall (fun q => Name q <> "") (saved (loop initial lines)))
      by (apply saved_named, loop_named; constructor).
    exact (proj1 (List.Forall_forall _ _) F q Hin).
  - unfold parseLines; cbn [fst].
    rewrite !loop_app.
    set (st := loop initial before).
    rewrite !saved_forget; f_equal.
    rewrite !loop_cons, loop_app, loop_cons.
    apply forget_loop.
    assert (E : step st d = mkState (saved st) (Some (mkQuery "" "")) [] (variables st)).
    { rewrite step_classify; unfold isDelimiter in Hd.
      now destruct (classify d). }
    destruct (loop_unnamed body Hbody (step st d)) as [Hq Hc].
    rewrite (step_classify _ d'); unfold isDelimiter in Hd'.
    destruct (classify d'); try discriminate.
    unfold saved at 1; rewrite Hc, Hq, E; reflexivity.
  - unfold parseLines; cbn [fst].
    rewrite loop_app, loop_cons.
    set (st := loop initial before).
    destruct (loop_unnamed body Hbody (step st d)) as [Hq Hc].
    unfold saved at 1; rewrite Hc, Hq, step_classify.
    unfold isDelimiter in Hd; destruct (classify d); try discriminate.
    reflexivity.
Qed.

(** ** The parser with and without variables *)

(** C9. On a file none of whose lines matches the variable-definition
    expression, [parseSQL] returns the statements (and the scanner error)
    that the parser without variable support returns. *)
Theorem parser_refines_earlier (content : string) :
  Forall (fun line => FindStringSubmatch variableRegex (TrimSpace line) = None)
         (fst (Scan content)) ->
  (fst (fst (parseSQL content)), snd (parseSQL content)) = Earlier.parseSQL content.
Proof.
  intros H; unfold parseSQL, Earlier.parseSQL.
  destruct (Scan content) as [lines err]; cbn [fst snd] in *; f_equal.
  unfold parseLines, Earlier.parseLines; cbn [fst].
  rewrite saved_forget, forget_loop_earlier; [reflexivity|].
  eapply List.Forall_impl; [|exact H].
  intros l Hl; now apply isDefinition_false.
Qed.

(** ** The variable table *)



(** ** The test suite of the repository, run on the embedding *)

Example TestParseSQLWithWhitespace :
  fst (fst (parseSQL
    ("---" +:+ LF +:+
     "--    @name   QueryWithSpaces   " +:+ LF +:+
     "SELECT * FROM test;" +:+ LF +:+
     LF +:+
     "---" +:+ LF +:+
     "--@nameNoSpaces" +:+ LF +:+
     "SELECT 1;" +:+ LF +:+
     LF +:+
     "---" +:+ LF +:+
     "-- @name QueryWithExtraLines" +:+ LF +:+
     LF +:+
     "SELECT * " +:+ LF +:+
     "FROM users " +:+ LF +:+
     "WHERE active = 1;" +:+ LF +:+
     LF +:+
     "---"))) =
  [ mkQuery "QueryWithSpaces" "SELECT * FROM test;";
    mkQuery "NoSpaces" "SELECT 1;";
    mkQuery "QueryWithExtraLines"
            ("SELECT * " +:+ LF +:+ "FROM users " +:+ LF +:+ "WHERE active = 1;") ].
Proof. vm_compute; reflexivity. Qed.

Example TestParseSQLEmptyFile : parseSQL "" = ([], ∅, None).
Proof. reflexivity. Qed.

Example TestParseSQLWithComments :
  fst (fst (parseSQL (fileOf
    [ "---";
      "-- @name QueryWithComments";
      "-- This is a comment that should be ignored";
      "SELECT * FROM users; -- inline comment";
      "-- Another comment";
      "WHERE active = 1;" ]))) =
  [ mkQuery "QueryWithComments"
            ("SELECT * FROM users; -- inline comment" +:+ LF +:+ "WHERE active = 1;") ].
Proof. vm_compute; reflexivity. Qed.

Example TestParseSQLNoQueryName :
  fst (fst (parseSQL
    ("---" +:+ LF +:+ "SELECT * FROM users;" +:+ LF +:+ LF +:+
     "---" +:+ LF +:+ "SELECT * FROM orders;" +:+ LF +:+ "---"))) = [].
Proof. vm_compute; reflexivity. Qed.

Example TestParseVariables :
  let '(queries, variables, err) := parseSQL testVariablesFile in
  err = None /\
  size variables = 4 /\
  map (fun k => variables !! k) ["status"; "user_id"; "limit"; "active"] =
    [Some (DQ +:+ "active" +:+ DQ); Some "123"; Some "10"; Some "true"] /\
  map Name queries = ["SelectUser"; "SelectActiveUsers"] /\
  map (fun q => fst (interpolateVariables (SQL q) variables)) queries =
  [ "SELECT * " +:+ LF +:+ "FROM Users" +:+ LF +:+ "WHERE id=123;";
    "SELECT * " +:+ LF +:+ "FROM Users " +:+ LF +:+
    "WHERE status=" +:+ DQ +:+ "active" +:+ DQ +:+ LF +:+ "LIMIT 10;" ].
Proof. vm_compute; repeat split. Qed.

Example TestInterpolateVariablesWithMissingVar :
  interpolateVariables
    "SELECT * FROM Users WHERE id=@missing_var AND status=@status"
    (<["status" := DQ +:+ "active" +:+ DQ]> ∅) =
  ("SELECT * FROM Users WHERE id=@missing_var AND status=" +:+ DQ +:+ "active" +:+ DQ,
   None).
Proof. vm_compute; reflexivity. Qed.

Example TestContainsSchemaChanges :
  map (containsSchemaChanges asciiToLower)
    [ "SELECT * FROM users"; "DROP TABLE users"; "drop table users";
      "CREATE TABLE test (id INT)";
      "ALTER TABLE users ADD COLUMN email VARCHAR(100)";
      "TRUNCATE TABLE logs"; "INSERT INTO users VALUES (1, 'test')";
      "UPDATE users SET name = 'test'"; "DELETE FROM users WHERE id = 1";
      "DROP DATABASE testdb"; "CREATE SCHEMA analytics";
      "-- DROP TABLE users" +:+ LF +:+ "SELECT * FROM users" ] =
  [ false; true; true; true; true; true; false; false; false; true; true; true ].
Proof. vm_compute; reflexivity. Qed.

Example TestContainsUpdates :
  map (containsUpdates asciiToLower)
    [ "SELECT * FROM users"; "UPDATE users SET name = 'test'";
      "update users set name = 'test'"; "DELETE FROM users WHERE id = 1";
      "delete from users where id = 1"; "INSERT INTO users VALUES (1, 'test')";
      "CREATE TABLE users (id INT)"; "DROP TABLE users";
      "-- UPDATE users" +:+ LF +:+ "SELECT * FROM users";
      "DELETE users WHERE id = 1" ] =
  [ false; true; true; true; true; true; false; false; true; true ].
Proof. vm_compute; reflexivity. Qed.

(** The replacement text is not scanned again. *)
Example interpolate_once :
  interpolateVariables "a=@x b=@y" (<["x" := "@y"]> (<["y" := "1"]> ∅)) =
  ("a=@y b=1", None).
Proof. vm_compute; reflexivity. Qed.

(** A line that fills the scanner's buffer stops it: [parseSQL] returns
    what it read before, and the error. *)
Example scanner_line_limit :
  parseSQL (fileOf ["---"; "-- @name A"; "SELECT 1;"; longLine; "---";
                    "-- @name B"; "SELECT 2;"]) =
  ([mkQuery "A" "SELECT 1;"], ∅, Some ErrTooLong).
Proof. vm_compute; reflexivity. Qed.

(** White space of Unicode is trimmed too, U+00A0 and U+2028 here. *)
Example TrimSpace_unicode :
  TrimSpace (String (byte 194) (String (byte 160) "  SELECT 1; ") +:+ LF +:+
             String (byte 226) (String (byte 128) (String (byte 168) ""))) =
  "SELECT 1;".
Proof. vm_compute; reflexivity. Qed.

(** ** The block before the first delimiter line *)

(** C1 (as stated) fails: two annotated blocks separated by a delimiter
    line, the first of them at the start of the file, give one statement,
    not two; the block before the first delimiter line gives none. *)
Lemma first_block_not_parsed :
  fst (fst (parseSQL (fileOf
    [ "-- @name First"; "SELECT 1;"; "---"; "-- @name Second"; "SELECT 2;" ]))) =
  [ mkQuery "Second" "SELECT 2;" ]
  /\ length (fst (fst (parseSQL (fileOf
    [ "-- @name First"; "SELECT 1;"; "---"; "-- @name Second"; "SELECT 2;" ]))))
     <> 2.
Proof. split; [vm_compute; reflexivity | vm_compute; discriminate]. Qed.

(** ** The theorems at concrete inputs *)

Lemma blocks_in_order_witness :
  fst (fst (parseSQL (fileOf
    [ "-- @name First"; "SELECT 1;"; "SET @n = 3";
      "---"; "-- @name A"; "SELECT 2;";
      "  ---- "; "SELECT 0;";
      "---";
      "-----"; "--@nameB"; "SELECT 3"; "-- from"; "FROM t;"; "" ]))) =
  [ mkQuery "A" "SELECT 2;"; mkQuery "B" ("SELECT 3" +:+ LF +:+ "FROM t;") ].
Proof.
  apply (blocks_in_order _
           ["-- @name First"; "SELECT 1;"; "SET @n = 3"]
           [ mkBlock "---" ["-- @name A"; "SELECT 2;"];
             mkBlock "  ---- " ["SELECT 0;"];
             mkBlock "---" [];
             mkBlock "-----" ["--@nameB"; "SELECT 3"; "-- from"; "FROM t;"; ""] ]);
    [vm_compute; reflexivity | repeat constructor | repeat constructor].
Defined.

Lemma interpolate_substitutes_witness :
  interpolateVariables ("a=@y, b=" +:+ "@" +:+ "x" +:+ ";")
                       (<["x" := "'@y'"]> (<["y" := "1"]> ∅)) =
  ("a=1, b='@y';", None).
Proof.
  rewrite (interpolate_substitutes (<["x" := "'@y'"]> (<["y" := "1"]> ∅))
             "a=@y, b=" "x" ";" "'@y'");
    [vm_compute; reflexivity | discriminate | reflexivity | reflexivity
    | vm_compute; reflexivity].
Defined.

Lemma interpolate_keeps_unresolved_witness :
  snd (interpolateVariables "SELECT @a" (<["y" := "1"]> ∅)) = None /\
  fst (interpolateVariables ("id=@y AND s=" +:+ "@" +:+ "missing" +:+ ";")
                            (<["y" := "1"]> ∅)) =
  "id=1 AND s=@missing;".
Proof.
  destruct (interpolate_keeps_unresolved (<["y" := "1"]> ∅)
              "SELECT @a" "id=@y AND s=" "missing" ";") as [Herr Htext];
    [discriminate | reflexivity | reflexivity | vm_compute; reflexivity |].
  split; [exact Herr | rewrite Htext; vm_compute; reflexivity].
Defined.

Lemma unnamed_block_dropped_witness :
  (forall content q, In q (fst (fst (parseSQL content))) -> Name q <> "") /\
  fst (parseLines (["---"; "-- @name A"; "SELECT 1;"] ++
                   "---" :: ["SELECT 2;"; "-- note"] ++
                   "---" :: ["-- @name B"; "SELECT 3;"])) =
    fst (parseLines (["---"; "-- @name A"; "SELECT 1;"] ++
                     "---" :: ["-- @name B"; "SELECT 3;"])) /\
  fst (parseLines (["---"; "-- @name A"; "SELECT 1;"] ++
                   "---" :: ["SELECT 2;"; "-- note"])) =
    fst (parseLines ["---"; "-- @name A"; "SELECT 1;"]).
Proof.
  apply (unnamed_block_dropped ["---"; "-- @name A"; "SELECT 1;"]
           ["SELECT 2;"; "-- note"] ["-- @name B"; "SELECT 3;"] "---" "---");
    [reflexivity | reflexivity | repeat constructor].
Defined.

Lemma parser_refines_earlier_witness :
  (fst (fst (parseSQL (fileOf ["---"; "-- @name A"; "SELECT 1;"; "---"]))),
   snd (parseSQL (fileOf ["---"; "-- @name A"; "SELECT 1;"; "---"]))) =
  Earlier.parseSQL (fileOf ["---"; "-- @name A"; "SELECT 1;"; "---"]).
Proof.
  apply (parser_refines_earlier (fileOf ["---"; "-- @name A"; "SELECT 1;"; "---"])).
  repeat constructor.
Defined.

(** * More of the code *)

(** ** Reversal and trimming *)

Lemma rev_app_spec (a b : string) : String.rev_app a b = String.rev a +:+ b.
Proof.
  unfold String.rev; revert b; induction a as [|c a IH]; intros b; simpl;
    [reflexivity|].
  rewrite (IH (String c b)), (IH (String c "")), app_assoc_s; reflexivity.
Qed.

Lemma rev_cons (c : ascii) (s : string) :
  String.rev (String c s) = String.rev s +:+ String c "".
Proof. unfold String.rev at 1; simpl; apply rev_app_spec. Qed.

Lemma rev_app_distr_s (a b : string) :
  String.rev (a +:+ b) = String.rev b +:+ String.rev a.
Proof.
  induction a as [|c a IH]; simpl.
  - now rewrite app_nil_r_s.
  - now rewrite !rev_cons, IH, app_assoc_s.
Qed.

Lemma rev_involutive_s (s : string) : String.rev (String.rev s) = s.
Proof.
  induction s as [|c s IH]; [reflexivity|].
  now rewrite rev_cons, rev_app_distr_s, IH.
Qed.

Lemma TrimLeft_unfold (s : string) :
  TrimLeft s =
  match s with
  | String c s1 =>
      if isSpace1 c then TrimLeft s1
      else
        match s1 with
        | String d s2 =>
            if isSpace2 c d then TrimLeft s2
            else
              match s2 with
              | String e s3 => if isSpace3 c d e then TrimLeft s3 else s
              | EmptyString => s
              end
        | EmptyString => s
        end
  | EmptyString => s
  end.
Proof. destruct s; reflexivity. Qed.

Lemma trim_reversed_unfold (r : string) :
  trim_reversed r =
  match r with
  | String e r1 =>
      if isSpace1 e then trim_reversed r1
      else
        match r1 with
        | String d r2 =>
            if isSpace2 d e then trim_reversed r2
            else
              match r2 with
              | String c r3 => if isSpace3 c d e then trim_reversed r3 else r
              | EmptyString => r
              end
        | EmptyString => r
        end
  | EmptyString => r
  end.
Proof. destruct r; reflexivity. Qed.

(** Trimming either stops at once or drops a few bytes and goes on. *)
Lemma TrimLeft_cases (s : string) :
  TrimLeft s = s \/
  exists d s', s = d +:+ s' /\ d <> "" /\ TrimLeft s = TrimLeft s'.
Proof.
  pose proof (TrimLeft_unfold s) as H.
  destruct s as [|c s1]; [now left|].
  destruct (isSpace1 c).
  { right; exists (String c ""), s1; repeat split; [discriminate | exact H]. }
  destruct s1 as [|d s2]; [now left|].
  destruct (isSpace2 c d).
  { right; exists (String c (String d "")), s2; repeat split;
      [discriminate | exact H]. }
  destruct s2 as [|e s3]; [now left|].
  destruct (isSpace3 c d e); [|now left].
  right; exists (String c (String d (String e ""))), s3; repeat split;
    [discriminate | exact H].
Qed.

Lemma trim_reversed_cases (s : string) :
  trim_reversed s = s \/
  exists d s', s = d +:+ s' /\ d <> "" /\ trim_reversed s = trim_reversed s'.
Proof.
  pose proof (trim_reversed_unfold s) as H.
  destruct s as [|c s1]; [now left|].
  destruct (isSpace1 c).
  { right; exists (String c ""), s1; repeat split; [discriminate | exact H]. }
  destruct s1 as [|d s2]; [now left|].
  destruct (isSpace2 d c).
  { right; exists (String c (String d "")), s2; repeat split;
      [discriminate | exact H]. }
  destruct s2 as [|e s3]; [now left|].
  destruct (isSpace3 e d c); [|now left].
  right; exists (String c (String d (String e ""))), s3; repeat split;
    [discriminate | exact H].
Qed.

Lemma nonempty_length (d : string) : d <> "" -> 0 < String.length d.
Proof. destruct d; [congruence | simpl; lia]. Qed.

(** What trimming leaves is the end of the text. *)
Lemma TrimLeft_suffix (s : string) : exists d, s = d +:+ TrimLeft s.
Proof.
  remember (String.length s) as n eqn:Hn; revert s Hn.
  induction n as [n IH] using lt_wf_ind; intros s Hn.
  destruct (TrimLeft_cases s) as [E|[d [s' [Es [Hd E]]]]].
  - exists ""; now rewrite E.
  - apply nonempty_length in Hd.
    destruct (IH (String.length s')) with (s := s') as [d' E'];
      [subst; rewrite length_app_s; lia | reflexivity |].
    exists (d +:+ d'); now rewrite E, app_assoc_s, <- E'.
Qed.

Lemma trim_reversed_suffix (s : string) : exists d, s = d +:+ trim_reversed s.
Proof.
  remember (String.length s) as n eqn:Hn; revert s Hn.
  induction n as [n IH] using lt_wf_ind; intros s Hn.
  destruct (trim_reversed_cases s) as [E|[d [s' [Es [Hd E]]]]].
  - exists ""; now rewrite E.
  - apply nonempty_length in Hd.
    destruct (IH (String.length s')) with (s := s') as [d' E'];
      [subst; rewrite length_app_s; lia | reflexivity |].
    exists (d +:+ d'); now rewrite E, app_assoc_s, <- E'.
Qed.

Lemma TrimLeft_idempotent (s : string) : TrimLeft (TrimLeft s) = TrimLeft s.
Proof.
  remember (String.length s) as n eqn:Hn; revert s Hn.
  induction n as [n IH] using lt_wf_ind; intros s Hn.
  destruct (TrimLeft_cases s) as [E|[d [s' [Es [Hd E]]]]].
  - now rewrite !E.
  - apply nonempty_length in Hd; rewrite E.
    apply (IH (String.length s')); [subst; rewrite length_app_s; lia | reflexivity].
Qed.

Lemma trim_reversed_idempotent (s : string) :
  trim_reversed (trim_reversed s) = trim_reversed s.
Proof.
  remember (String.length s) as n eqn:Hn; revert s Hn.
  induction n as [n IH] using lt_wf_ind; intros s Hn.
  destruct (trim_reversed_cases s) as [E|[d [s' [Es [Hd E]]]]].
  - now rewrite !E.
  - apply nonempty_length in Hd; rewrite E.
    apply (IH (String.length s')); [subst; rewrite length_app_s; lia | reflexivity].
Qed.

Lemma app_length_absurd (d s t : string) :
  d <> "" -> d +:+ s = TrimLeft t -> String.length t <= String.length s -> False.
Proof.
  intros Hd E Hl; apply nonempty_length in Hd.
  destruct (TrimLeft_suffix t) as [d' E'].
  assert (H : String.length t = String.length d' + String.length (TrimLeft t))
    by (rewrite E' at 1; apply length_app_s).
  rewrite <- E, length_app_s in H; lia.
Qed.

(** A text that has no white space at its start keeps none when its end
    is cut off. *)
Lemma TrimLeft_prefix (p t : string) :
  TrimLeft (p +:+ t) = p +:+ t -> TrimLeft p = p.
Proof.
  rewrite (TrimLeft_unfold (p +:+ t)), (TrimLeft_unfold p).
  destruct p as [|c p1]; [reflexivity|]; cbn [String.append].
  destruct (isSpace1 c).
  { intros E; exfalso; symmetry in E.
    apply (app_length_absurd (String c "") (p1 +:+ t) (p1 +:+ t));
      [discriminate | exact E | lia]. }
  destruct p1 as [|d p2]; [reflexivity|]; cbn [String.append].
  destruct (isSpace2 c d).
  { intros E; exfalso; symmetry in E.
    apply (app_length_absurd (String c (String d "")) (p2 +:+ t) (p2 +:+ t));
      [discriminate | exact E | lia]. }
  destruct p2 as [|e p3]; [reflexivity|]; cbn [String.append].
  destruct (isSpace3 c d e); [|reflexivity].
  intros E; exfalso; symmetry in E.
  apply (app_length_absurd (String c (String d (String e ""))) (p3 +:+ t) (p3 +:+ t));
    [discriminate | exact E | lia].
Qed.

Lemma TrimSpace_left (s : string) : TrimLeft (TrimSpace s) = TrimSpace s.
Proof.
  unfold TrimSpace, TrimRight.
  destruct (trim_reversed_suffix (String.rev (TrimLeft s))) as [d E].
  apply (TrimLeft_prefix _ (String.rev d)).
  rewrite <- rev_app_distr_s, <- E, rev_involutive_s.
  apply TrimLeft_idempotent.
Qed.

Lemma TrimSpace_right (s : string) : TrimRight (TrimSpace s) = TrimSpace s.
Proof.
  unfold TrimSpace, TrimRight.
  now rewrite rev_involutive_s, trim_reversed_idempotent.
Qed.

Lemma TrimSpace_idempotent (s : string) : TrimSpace (TrimSpace s) = TrimSpace s.
Proof.
  unfold TrimSpace at 1; now rewrite TrimSpace_left, TrimSpace_right.
Qed.

Lemma TrimLeft_fixed_start (s : string) :
  TrimLeft s = s -> starts_with isSpace1 s = false.
Proof.
  destruct s as [|c s]; [reflexivity|]; simpl.
  destruct (isSpace1 c); [|reflexivity].
  intros E; exfalso; symmetry in E.
  apply (app_length_absurd (String c "") s s); [discriminate | exact E | lia].
Qed.

Lemma trim_reversed_fixed_start (s : string) :
  trim_reversed s = s -> starts_with isSpace1 s = false.
Proof.
  destruct s as [|c s]; [reflexivity|]; simpl.
  destruct (isSpace1 c); [|reflexivity].
  intros E; exfalso.
  destruct (trim_reversed_suffix s) as [d Ed].
  assert (H : String.length s = String.length d + String.length (trim_reversed s))
    by (rewrite Ed at 1; apply length_app_s).
  rewrite E in H; simpl in H; lia.
Qed.

(** ** More on [parseSQL] *)

Lemma step_comment (st : state) (line : string) :
  isComment line = true -> step st line = st.
Proof.
  unfold isComment; rewrite step_classify.
  now destruct (classify line).
Qed.

(** X1. Comment lines count for nothing: the file without them parses to
    the same statements and the same variable table. *)
Theorem comments_ignored (lines : list string) :
  parseLines (List.filter (fun l => negb (isComment l)) lines) = parseLines lines.
Proof.
  unfold parseLines.
  assert (H : forall st,
             loop st (List.filter (fun l => negb (isComment l)) lines) = loop st lines).
  { induction lines as [|l lines IH]; intros st; [reflexivity|].
    cbn [List.filter]; destruct (isComment l) eqn:E; cbn [negb].
    - now rewrite loop_cons, (step_comment st l E), IH.
    - now rewrite !loop_cons, IH. }
  now rewrite H.
Qed.

Lemma variables_step (st : state) (line : string) :
  variables (step st line) = bind (variables st) line.
Proof.
  rewrite step_classify; unfold bind.
  destruct (classify line); try reflexivity; now destruct (currentQuery st).
Qed.

Lemma variables_loop (lines : list string) :
  forall st, variables (loop st lines) = fold_left bind lines (variables st).
Proof.
  induction lines as [|l lines IH]; intros st; [reflexivity|].
  now rewrite loop_cons, IH, variables_step.
Qed.

Lemma bind_other (table : gmap string string) (line : string) :
  isDefinition line = false -> bind table line = table.
Proof. unfold isDefinition, bind; now destruct (classify line). Qed.

Lemma fold_bind_definitions (lines : list string) :
  forall table,
    fold_left bind (List.filter isDefinition lines) table = fold_left bind lines table.
Proof.
  induction lines as [|l lines IH]; intros table; [reflexivity|].
  cbn [List.filter]; destruct (isDefinition l) eqn:E; cbn [fold_left].
  - apply IH.
  - now rewrite (bind_other table l E).
Qed.

(** X2. The variable table is flat: it is built by the definition lines
    alone, in their order, wherever they stand; the file reduced to its
    definition lines gives the same table. *)
Theorem variables_from_definitions (lines : list string) :
  snd (parseLines lines) = snd (parseLines (List.filter isDefinition lines)).
Proof.
  unfold parseLines; cbn [snd].
  now rewrite !variables_loop, fold_bind_definitions.
Qed.

Lemma forget_loop_definitions (lines : list string) :
  forall st,
    forget (loop st lines) =
    forget (loop st (List.filter (fun l => negb (isDefinition l)) lines)).
Proof.
  induction lines as [|l lines IH]; intros st; [reflexivity|].
  cbn [List.filter]; destruct (isDefinition l) eqn:E; cbn [negb].
  - rewrite loop_cons, <- IH.
    apply forget_loop; now rewrite forget_step, E.
  - now rewrite !loop_cons, IH.
Qed.

(** X3. Definition lines do not touch the statements: the statements of a
    file are those of the file without its definition lines, and those the
    parser without variable support finds there. *)
Theorem statements_without_definitions (lines : list string) :
  fst (parseLines lines) =
    fst (parseLines (List.filter (fun l => negb (isDefinition l)) lines)) /\
  fst (parseLines lines) =
    Earlier.parseLines (List.filter (fun l => negb (isDefinition l)) lines).
Proof.
  assert (H : fst (parseLines lines) =
              fst (parseLines (List.filter (fun l => negb (isDefinition l)) lines))).
  { unfold parseLines; cbn [fst].
    now rewrite !saved_forget, forget_loop_definitions. }
  split; [exact H|]; rewrite H.
  unfold parseLines, Earlier.parseLines; cbn [fst].
  rewrite saved_forget, forget_loop_earlier; [reflexivity|].
  apply List.Forall_forall; intros l Hl.
  apply List.filter_In in Hl as [_ Hl]; now apply negb_true_iff.
Qed.

(** The statements found so far and the block in progress are well formed:
    names are runs of word characters, texts are trimmed. *)
Lemma saved_wellformed (st : state) :
  Forall (fun q => every re_word (Name q) = true /\ TrimSpace (SQL q) = SQL q)
         (queries st) ->
  (forall q, currentQuery st = Some q -> every re_word (Name q) = true) ->
  Forall (fun q => every re_word (Name q) = true /\ TrimSpace (SQL q) = SQL q)
         (saved st).
Proof.
  intros Hq Hc; unfold saved.
  destruct (currentQuery st) as [q|]; [|exact Hq].
  destruct (negb (Name q =? "")%string); [|exact Hq].
  apply Forall_app; split; [exact Hq|].
  constructor; [|constructor]; split; simpl.
  - now apply Hc.
  - apply TrimSpace_idempotent.
Qed.

Lemma step_wellformed (st : state) (line : string) :
  Forall (fun q => every re_word (Name q) = true /\ TrimSpace (SQL q) = SQL q)
         (queries st) ->
  (forall q, currentQuery st = Some q -> every re_word (Name q) = true) ->
  Forall (fun q => every re_word (Name q) = true /\ TrimSpace (SQL q) = SQL q)
         (queries (step st line)) /\
  (forall q, currentQuery (step st line) = Some q -> every re_word (Name q) = true).
Proof.
  intros Hq Hc; rewrite step_classify.
  destruct (classify line) as [n v| |n| |] eqn:E; simpl; try (now split).
  - split; [now apply saved_wellformed|].
    intros q H; now inversion H.
  - destruct st as [qs [q0|] ls vs]; simpl in *; split; try assumption.
    intros q H; inversion H; subst; simpl.
    now apply (annotation_name line).
  - destruct st as [qs [q0|] ls vs]; simpl in *; split; assumption.
Qed.

Lemma loop_wellformed (lines : list string) :
  forall st,
    Forall (fun q => every re_word (Name q) = true /\ TrimSpace (SQL q) = SQL q)
           (queries st) ->
    (forall q, currentQuery st = Some q -> every re_word (Name q) = true) ->
    Forall (fun q => every re_word (Name q) = true /\ TrimSpace (SQL q) = SQL q)
           (saved (loop st lines)).
Proof.
  induction lines as [|l lines IH]; intros st Hq Hc.
  - now apply saved_wellformed.
  - rewrite loop_cons; destruct (step_wellformed st l Hq Hc) as [Hq' Hc'].
    now apply IH.
Qed.

Lemma parseSQL_wellformed (content : string) :
  Forall (fun q => every re_word (Name q) = true /\ TrimSpace (SQL q) = SQL q)
         (fst (fst (parseSQL content))).
Proof.
  rewrite parseSQL_lines; unfold parseLines; cbn [fst].
  apply loop_wellformed; [constructor | discriminate].
Qed.

(** X4. The name of every statement [parseSQL] returns is an identifier:
    letters, digits and underscores only. *)
Theorem names_are_identifiers (content : string) :
  Forall (fun q => every re_word (Name q) = true) (fst (fst (parseSQL content))).
Proof.
  eapply List.Forall_impl; [|apply parseSQL_wellformed].
  now intros q [H _].
Qed.

(** X5. The text of every statement [parseSQL] returns is trimmed:
    trimming it again changes nothing, and it neither starts nor ends with
    a blank, a tab or a line break. *)
Theorem texts_are_trimmed (content : string) :
  Forall (fun q => TrimSpace (SQL q) = SQL q /\
                   starts_with isSpace1 (SQL q) = false /\
                   starts_with isSpace1 (String.rev (SQL q)) = false)
         (fst (fst (parseSQL content))).
Proof.
  eapply List.Forall_impl; [|apply parseSQL_wellformed].
  intros q [_ E]; split; [exact E|]; rewrite <- E; split.
  - apply TrimLeft_fixed_start, TrimSpace_left.
  - apply trim_reversed_fixed_start.
    unfold TrimSpace, TrimRight.
    now rewrite rev_involutive_s, trim_reversed_idempotent.
Qed.

(** ** Line endings *)

Lemma dropCR_CR (l : string) : dropCR (l +:+ String (byte 13) "") = l.
Proof.
  unfold dropCR; rewrite rev_app_distr_s.
  change (String.rev (String (byte 13) "")) with (String (byte 13) "").
  cbn [String.append].
  change (is_byte 13 (byte 13)) with true; cbv iota.
  apply rev_involutive_s.
Qed.

Lemma every_app (p : ascii -> bool) (a b : string) :
  every p (a +:+ b) = every p a && every p b.
Proof.
  induction a as [|c a IH]; simpl; [reflexivity|].
  now rewrite IH, andb_assoc.
Qed.

Lemma Scan_fileOfCRLF (lines : list string) :
  forallb plainLine lines = true ->
  forallb (fun l => negb (tooLong (l +:+ String (byte 13) ""))) lines = true ->
  Scan (fileOfCRLF lines) = (lines, None).
Proof.
  unfold Scan; induction lines as [|l lines IH]; [reflexivity|].
  cbn [forallb fileOfCRLF]; unfold plainLine at 1.
  rewrite !andb_true_iff, !negb_true_iff.
  intros [[[Hlf _] _] Hrest] [Hlen Hrest'].
  change (l +:+ String (byte 13) LF +:+ fileOfCRLF lines)
    with (l +:+ String (byte 13) (LF +:+ fileOfCRLF lines)).
  replace (l +:+ String (byte 13) (LF +:+ fileOfCRLF lines))
    with ((l +:+ String (byte 13) "") +:+ LF +:+ fileOfCRLF lines)
    by (now rewrite app_assoc_s).
  rewrite rawLines_line by (rewrite every_app, Hlf; reflexivity).
  cbn [scanTokens]; rewrite Hlen, (IH Hrest Hrest'), dropCR_CR; reflexivity.
Qed.

(** X6. Line endings do not matter below the line limit: for lines
    without line feed and without carriage return at the end, each of
    them short enough to stay below the scanner's limit of 65536 bytes
    with its carriage return too (at most 65534 bytes), the file written
    with carriage return and line feed parses to what the file written
    with line feeds parses to. *)
Theorem crlf_file_parses_alike (lines : list string) :
  forallb plainLine lines = true ->
  forallb (fun l => negb (tooLong (l +:+ String (byte 13) ""))) lines = true ->
  parseSQL (fileOfCRLF lines) = parseSQL (fileOf lines).
Proof.
  intros Hp Hl; unfold parseSQL.
  now rewrite (Scan_fileOfCRLF lines Hp Hl), (Scan_fileOf lines Hp).
Qed.

(** ** More on [interpolateVariables] *)

Lemma ref_starts_before_stop (c : ascii) (a b : string) :
  starts_with re_word b = false ->
  ref_starts (String c (a +:+ b)) = ref_starts (String c a).
Proof.
  intros Hb; destruct a as [|d a]; simpl; [|reflexivity].
  now rewrite Hb.
Qed.

Lemma ReplaceAll_ref_app (repl : string -> string) (b : string) :
  starts_with re_word b = false ->
  forall a,
    ReplaceAllStringFunc variableRefRegex (a +:+ b) repl =
    ReplaceAllStringFunc variableRefRegex a repl +:+
    ReplaceAllStringFunc variableRefRegex b repl.
Proof.
  intros Hb a.
  remember (String.length a) as len eqn:Hlen.
  revert a Hlen; induction len as [len IH] using lt_wf_ind; intros a Hlen.
  destruct a as [|c a]; [reflexivity|].
  cbn [String.append].
  destruct (ref_starts (String c a)) eqn:E.
  - apply ref_starts_true in E as [w [a' [Es Hw]]].
    inversion Es; subst c a; clear Es.
    cbn [String.append]; rewrite !(ReplaceAll_ref_hit repl w _ Hw).
    rewrite (span_before_stop re_word a' b Hb).
    cbn [fst snd]; rewrite app_assoc_s; f_equal.
    apply (IH (String.length (snd (span re_word a')))); [|reflexivity].
    pose proof (span_length re_word a'); simpl in Hlen; lia.
  - rewrite (ReplaceAll_ref_skip repl c a E), ReplaceAll_ref_skip
      by now rewrite ref_starts_before_stop.
    cbn [String.append]; f_equal.
    apply (IH (String.length a)); [simpl in Hlen; lia | reflexivity].
Qed.

(** X7. Interpolation works piece by piece: where a text is cut before a
    character that is no word character (a blank, a line break, a comma,
    the end), the interpolation of the whole is the interpolation of the
    first part followed by that of the second. *)
Theorem interpolate_concat (variables : gmap string string) (a b : string) :
  starts_with re_word b = false ->
  fst (interpolateVariables (a +:+ b) variables) =
  fst (interpolateVariables a variables) +:+ fst (interpolateVariables b variables).
Proof.
  intros Hb; unfold interpolateVariables; cbn [fst].
  now apply ReplaceAll_ref_app.
Qed.

Lemma ref_starts_no_at (c : ascii) (s : string) :
  Ascii.eqb c "@" = false -> ref_starts (String c s) = false.
Proof. intros H; simpl; now rewrite H. Qed.

(** X8. A text without [@] comes out of interpolation as it is, whatever
    the table holds. *)
Theorem interpolate_without_at (variables : gmap string string) (text : string) :
  every (fun c => negb (Ascii.eqb c "@")) text = true ->
  interpolateVariables text variables = (text, None).
Proof.
  intros H; unfold interpolateVariables; f_equal.
  induction text as [|c text IH]; [reflexivity|].
  simpl in H; apply andb_true_iff in H as [Hc H].
  apply negb_true_iff in Hc.
  now rewrite (ReplaceAll_ref_skip _ c text (ref_starts_no_at c text Hc)), (IH H).
Qed.

(** ** More on the classifier *)

Lemma occurs_in_longer (short rest s : string) :
  occurs_in (short +:+ rest) s -> occurs_in short s.
Proof.
  intros [pre [post ->]]; exists pre, (rest +:+ post).
  now rewrite app_assoc_s.
Qed.

(** X9. Two keywords of the lists decide nothing: a text with
    [truncate table] has [truncate], a text with [delete from] has
    [delete ] with the blank.  [containsSchemaChanges] is the test for the
    ten other keywords, [containsUpdates] the test for [update ],
    [delete ] and [insert]. *)
Theorem redundant_keywords (ToLower : string -> string) (text : string) :
  (containsSchemaChanges ToLower text = true <->
   exists keyword,
     In keyword [ "drop table"; "drop database"; "drop schema";
                  "alter table"; "alter database"; "alter schema";
                  "create table"; "create database"; "create schema";
                  "truncate" ]
     /\ occurs_in keyword (ToLower text))
  /\
  (containsUpdates ToLower text = true <->
   exists keyword,
     In keyword [ "update "; "delete "; "insert" ]
     /\ occurs_in keyword (ToLower text)).
Proof.
  split; [unfold containsSchemaChanges | unfold containsUpdates];
    rewrite anyKeyword_iff; split; intros [k [Hin Hocc]].
  - destruct (String.eqb_spec k "truncate table") as [->|Hne].
    + exists "truncate"; split; [simpl; tauto|].
      now apply (occurs_in_longer "truncate" " table").
    + exists k; split; [|exact Hocc].
      simpl in *; intuition congruence.
  - exists k; split; [|exact Hocc]; simpl in *; tauto.
  - destruct (String.eqb_spec k "delete from") as [->|Hne].
    + exists "delete "; split; [simpl; tauto|].
      now apply (occurs_in_longer "delete " "from").
    + exists k; split; [|exact Hocc].
      simpl in *; intuition congruence.
  - exists k; split; [|exact Hocc]; simpl in *; tauto.
Qed.

Lemma anyKeyword_inside (keywords : list string) (a t b : string) :
  anyKeyword t keywords = true -> anyKeyword (a +:+ t +:+ b) keywords = true.
Proof.
  rewrite !anyKeyword_iff; intros [k [Hin [pre [post ->]]]].
  exists k; split; [exact Hin|].
  exists (a +:+ pre), (post +:+ b); now rewrite !app_assoc_s.
Qed.

(** X10. The classifier looks at the whole text: a text that is classified
    as a schema change or as a row mutation stays so inside any longer
    text -- behind a comment marker, between quotes, after other
    statements -- provided lower-casing the longer text lower-cases its
    three parts (as it does for texts cut between characters). *)
Theorem classified_inside (ToLower : string -> string) (a t b : string) :
  ToLower (a +:+ t +:+ b) = ToLower a +:+ ToLower t +:+ ToLower b ->
  (containsSchemaChanges ToLower t = true ->
   containsSchemaChanges ToLower (a +:+ t +:+ b) = true) /\
  (containsUpdates ToLower t = true ->
   containsUpdates ToLower (a +:+ t +:+ b) = true).
Proof.
  intros Happ; unfold containsSchemaChanges, containsUpdates.
  rewrite !Happ; split; apply anyKeyword_inside.
Qed.

Lemma asciiToLower_app (x y : string) :
  asciiToLower (x +:+ y) = asciiToLower x +:+ asciiToLower y.
Proof. induction x as [|c x IH]; simpl; [reflexivity | now rewrite IH]. Qed.

(** ** [confirmQuery] *)

Lemma Split_nonempty (s : string) (sep : ascii) : Split s sep <> [].
Proof.
  destruct s as [|c s]; simpl; [discriminate|].
  destruct (Ascii.eqb c sep); [discriminate|].
  destruct (Split s sep); discriminate.
Qed.

Lemma Join_cons (e : string) (elems : list string) (sep : string) :
  elems <> [] -> Join (e :: elems) sep = e +:+ sep +:+ Join elems sep.
Proof. destruct elems; [congruence | reflexivity]. Qed.

(** Splitting a text at a byte and joining the pieces with that byte
    gives the text back. *)
Lemma Join_Split (s : string) (sep : ascii) :
  Join (Split s sep) (String sep "") = s.
Proof.
  induction s as [|c s IH]; [reflexivity|]; cbn [Split].
  destruct (Ascii.eqb_spec c sep) as [->|Hne].
  - rewrite Join_cons by apply Split_nonempty.
    now rewrite IH.
  - pose proof (Split_nonempty s sep) as Hs.
    destruct (Split s sep) as [|piece pieces]; [congruence|].
    destruct pieces as [|p2 pieces].
    + simpl in *; now rewrite IH.
    + rewrite Join_cons in IH by discriminate.
      rewrite Join_cons by discriminate.
      rewrite <- IH; reflexivity.
Qed.

Lemma firstn_whole {A : Type} (l : list A) (n : nat) :
  length l <= n -> firstn (min n (length l)) l = l.
Proof.
  intros H; unfold min.
  destruct (Nat.ltb_spec n (length l)); [lia|].
  apply firstn_all.
Qed.

(** X11. A query of at most five lines is shown whole before the question;
    nothing is added to it. *)
Theorem preview_short (sql : string) :
  length (Split sql (byte 10)) <= 5 -> preview sql = sql.
Proof.
  intros H; unfold preview.
  destruct (Nat.ltb_spec 5 (length (Split sql (byte 10)))); [lia|].
  rewrite firstn_whole by exact H.
  apply (Join_Split sql (byte 10)).
Qed.

(** ** [main] *)

Lemma interpolate_no_error (sql : string) (variables : gmap string string) :
  snd (interpolateVariables sql variables) = None.
Proof. reflexivity. Qed.

Lemma output_cases (ToLower : string -> string) (confirm : bool) (config : Config)
    (response : string) (variables : gmap string string) (q : Query) :
  let sql := fst (interpolateVariables (SQL q) variables) in
  let r := output ToLower confirm config response variables q in
  (exitCode r = 0 /\ stdout r = sql /\
   (needsConfirm ToLower confirm config sql = true -> accepted ToLower response = true))
  \/ (exitCode r = 1 /\ stdout r = "" /\
      needsConfirm ToLower confirm config sql = true /\
      accepted ToLower response = false).
Proof.
  unfold output; cbn [interpolateVariables fst].
  destruct (needsConfirm ToLower confirm config _) eqn:En.
  - destruct (accepted ToLower response) eqn:Ea; [left | right]; now repeat split.
  - left; repeat split; discriminate.
Qed.

Lemma lookup_cases (ToLower : string -> string) (confirm : bool) (config : Config)
    (response : string) (variables : gmap string string) (queryName : string)
    (queries : list Query) :
  (Forall (fun q => Name q <> queryName) queries /\
   lookup ToLower confirm config response variables queryName queries =
   mkResult "" ("error: query '" +:+ queryName +:+ "' not found" +:+ LF) 1)
  \/ exists before q after,
       queries = before ++ q :: after /\
       Forall (fun q' => Name q' <> queryName) before /\ Name q = queryName /\
       lookup ToLower confirm config response variables queryName queries =
       output ToLower confirm config response variables q.
Proof.
  induction queries as [|q queries IH]; [left; split; [constructor | reflexivity]|].
  cbn [lookup]; destruct (String.eqb_spec (Name q) queryName) as [E|E].
  - right; exists [], q, queries; repeat split; [constructor | exact E].
  - destruct IH as [[Hall Hr]|[before [q' [after [-> [Hb [Hn Hr]]]]]]].
    + left; split; [now constructor | exact Hr].
    + right; exists (q :: before), q', after; repeat split;
        [now constructor | exact Hn | exact Hr].
Qed.

(** The ways [main] ends. *)
Lemma main_cases (ToLower : string -> string) (i : invocation) :
  (stdout (main ToLower i) = "" /\ exitCode (main ToLower i) <= 1)
  \/ exists content queries variables,
       filepathOf i <> "" /\ HasSuffix (filepathOf i) ".sql" = true /\
       files i (filepathOf i) = inl content /\
       parseSQL content = (queries, variables, None) /\
       queryNameOf i <> "" /\
       main ToLower i =
       lookup ToLower (confirmFlag i) (configOf i) (response i) variables
              (queryNameOf i) queries.
Proof.
  unfold main; fold (filepathOf i) (queryNameOf i) (configOf i).
  destruct (String.eqb_spec (filepathOf i) "") as [Ef|Ef].
  { left; split; simpl; [reflexivity | lia]. }
  destruct (HasSuffix (filepathOf i) ".sql") eqn:Es; cbn [negb].
  2: { left; split; simpl; [reflexivity | lia]. }
  destruct (files i (filepathOf i)) as [content|reason] eqn:Eo.
  2: { left; split; simpl; [reflexivity | lia]. }
  destruct (parseSQL content) as [[queries variables] [e|]] eqn:Ep.
  { left; split; simpl; [reflexivity | lia]. }
  destruct (String.eqb_spec (queryNameOf i) "") as [En|En].
  { left; split; simpl; [reflexivity | lia]. }
  right; exists content, queries, variables; now repeat split.
Qed.

Lemma lookup_failure (ToLower : string -> string) (confirm : bool) (config : Config)
    (response : string) (variables : gmap string string) (queryName : string)
    (queries : list Query) :
  let r := lookup ToLower confirm config response variables queryName queries in
  (exitCode r = 0 \/ exitCode r = 1) /\ (exitCode r <> 0 -> stdout r = "").
Proof.
  cbv zeta.
  destruct (lookup_cases ToLower confirm config response variables queryName queries)
    as [[_ ->]|[before [q [after [_ [_ [_ ->]]]]]]].
  - split; [now right | reflexivity].
  - destruct (output_cases ToLower confirm config response variables q)
      as [[He [Hs _]]|[He [Hs _]]]; rewrite He.
    + split; [now left | congruence].
    + split; [now right | intros _; exact Hs].
Qed.

(** X12. What goes wrong leaves the standard output empty: once the
    command line is parsed ([flag.Parse] has returned), when [main] ends
    with an exit code other than 0 -- no file, a wrong extension, a file
    that cannot be read, an unknown name, a refused confirmation --
    nothing has been printed for the database client. *)
Theorem failure_prints_nothing (ToLower : string -> string) (i : invocation) :
  exitCode (main ToLower i) <> 0 -> stdout (main ToLower i) = "".
Proof.
  destruct (main_cases ToLower i)
    as [[Hs He]|[content [queries [variables [_ [_ [_ [_ [_ ->]]]]]]]]].
  - intros _; exact Hs.
  - apply lookup_failure.
Qed.

(** X13. The confirmation gate: a query text that reaches the standard
    output without the answer [y] or [yes] needed no confirmation -- the
    [-confirm] flag and the [confirm] setting are off, and for every
    classification that is switched on the printed text is not of that
    class.  The classification is that of the printed, interpolated
    text. *)
Theorem unconfirmed_output_is_unflagged (ToLower : string -> string)
    (i : invocation) :
  stdout (main ToLower i) <> "" ->
  accepted ToLower (response i) = false ->
  confirmFlag i = false /\ Confirm (configOf i) = false /\
  (ConfirmSchemaChanges (configOf i) = true ->
   containsSchemaChanges ToLower (stdout (main ToLower i)) = false) /\
  (ConfirmUpdates (configOf i) = true ->
   containsUpdates ToLower (stdout (main ToLower i)) = false).
Proof.
  intros Hout Hno.
  destruct (main_cases ToLower i)
    as [[Hs _]|[content [queries [variables [_ [_ [_ [_ [_ E]]]]]]]]];
    [congruence|].
  rewrite E in *.
  destruct (lookup_cases ToLower (confirmFlag i) (configOf i) (response i)
              variables (queryNameOf i) queries)
    as [[_ Hr]|[before [q [after [_ [_ [_ Hr]]]]]]]; rewrite Hr in *;
    [now simpl in Hout|].
  destruct (output_cases ToLower (confirmFlag i) (configOf i) (response i) variables q)
    as [[_ [Hs Hc]]|[_ [Hs _]]]; [|congruence].
  rewrite Hs.
  destruct (needsConfirm ToLower (confirmFlag i) (configOf i)
              (fst (interpolateVariables (SQL q) variables))) eqn:En.
  { specialize (Hc eq_refl); congruence. }
  unfold needsConfirm in En.
  apply orb_false_iff in En as [En Hu]; apply orb_false_iff in En as [En Hsc].
  apply orb_false_iff in En as [Hf Hcf].
  repeat split; try assumption.
  - intros H; rewrite H in Hsc; exact Hsc.
  - intros H; rewrite H in Hu; exact Hu.
Qed.

(** X14. The first statement with the requested name is the one that is
    run: [main] ends as the output step for it does, whatever statements
    follow, also others of the same name. *)
Theorem first_match_is_run (ToLower : string -> string) (i : invocation)
    (content : string) (before after : list Query) (q : Query)
    (variables : gmap string string) :
  filepathOf i <> "" -> HasSuffix (filepathOf i) ".sql" = true ->
  files i (filepathOf i) = inl content ->
  parseSQL content = (before ++ q :: after, variables, None) ->
  queryNameOf i = Name q ->
  Forall (fun q' => Name q' <> Name q) before ->
  main ToLower i =
  output ToLower (confirmFlag i) (configOf i) (response i) variables q.
Proof.
  intros Hf Hs Ho Hp Hn Hb.
  assert (Hq : Name q <> "").
  { pose proof (parseSQL_lines content) as E; rewrite Hp in E.
    inversion E as [[Eq Ev Ee]].
    assert (F : Forall (fun q => Name q <> "") (before ++ q :: after)).
    { rewrite Eq; unfold parseLines; cbn [fst].
      apply saved_named, loop_named; constructor. }
    apply Forall_app in F as [_ F]; now inversion F. }
  unfold main; fold (filepathOf i) (queryNameOf i) (configOf i).
  destruct (String.eqb_spec (filepathOf i) "") as [|_]; [congruence|].
  rewrite Hs, Ho, Hp, Hn; cbn [negb].
  destruct (String.eqb_spec (Name q) "") as [|_]; [congruence|].
  clear -Hb; induction Hb as [|q' before Hq' _ IH]; cbn [app lookup].
  - now rewrite String.eqb_refl.
  - destruct (String.eqb_spec (Name q') (Name q)); [congruence | exact IH].
Qed.

(** X15. A name that no statement of the file has ends [main] with exit
    code 1, the message that the query was not found, and nothing on the
    standard output. *)
Theorem unknown_name (ToLower : string -> string) (i : invocation)
    (content : string) (queries : list Query) (variables : gmap string string) :
  filepathOf i <> "" -> HasSuffix (filepathOf i) ".sql" = true ->
  files i (filepathOf i) = inl content ->
  parseSQL content = (queries, variables, None) ->
  queryNameOf i <> "" ->
  Forall (fun q => Name q <> queryNameOf i) queries ->
  main ToLower i =
  mkResult "" ("error: query '" +:+ queryNameOf i +:+ "' not found" +:+ LF) 1.
Proof.
  intros Hf Hs Ho Hp Hn Hall.
  unfold main; fold (filepathOf i) (queryNameOf i) (configOf i).
  destruct (String.eqb_spec (filepathOf i) "") as [|_]; [congruence|].
  rewrite Hs, Ho, Hp; cbn [negb].
  destruct (String.eqb_spec (queryNameOf i) "") as [|_]; [congruence|].
  clear Hp; induction Hall as [|q queries Hq _ IH]; cbn [lookup]; [reflexivity|].
  destruct (String.eqb_spec (Name q) (queryNameOf i)); [congruence | exact IH].
Qed.

(** X19. Nothing but a statement reaches the standard output: what [main]
    prints there is the interpolated text of a statement of the file that
    has the requested name, and [main] then ends with exit code 0; usage,
    listing, question and error messages never go there. *)
Theorem stdout_is_a_statement (ToLower : string -> string) (i : invocation) :
  stdout (main ToLower i) <> "" ->
  exists content queries variables q,
    files i (filepathOf i) = inl content /\
    parseSQL content = (queries, variables, None) /\
    In q queries /\ Name q = queryNameOf i /\
    stdout (main ToLower i) = fst (interpolateVariables (SQL q) variables) /\
    exitCode (main ToLower i) = 0.
Proof.
  intros Hout.
  destruct (main_cases ToLower i)
    as [[Hs _]|[content [queries [variables [_ [_ [Ho [Hp [_ E]]]]]]]]];
    [congruence|].
  rewrite E in *.
  destruct (lookup_cases ToLower (confirmFlag i) (configOf i) (response i)
              variables (queryNameOf i) queries)
    as [[_ Hr]|[before [q [after [Eq [_ [Hn Hr]]]]]]]; rewrite Hr in *;
    [now simpl in Hout|].
  destruct (output_cases ToLower (confirmFlag i) (configOf i) (response i) variables q)
    as [[He [Hs _]]|[_ [Hs _]]]; [|congruence].
  exists content, queries, variables, q; repeat split; try assumption.
  rewrite Eq; apply in_or_app; right; now left.
Qed.

(** ** Delimiter lines *)

Ltac invert_matches :=
  repeat match goal with
  | H : Matches _ (Seq _ _) _ _ |- _ => inversion H; subst; clear H
  | H : Matches _ (Lit _) _ _ |- _ => inversion H; subst; clear H
  | H : Matches _ (Plus _) _ _ |- _ => inversion H; subst; clear H
  | H : Matches _ Bol _ _ |- _ => inversion H; subst; clear H
  | H : Matches _ Eol _ _ |- _ => inversion H; subst; clear H
  end.

Lemma separator_match (n : nat) (s s' : string) :
  Matches n separatorRegex s s' <->
  String.length s = n /\ s' = "" /\
  exists a, a <> "" /\ every re_dash a = true /\ s = "--" +:+ a.
Proof.
  unfold separatorRegex; split.
  - intros H; invert_matches.
    split; [reflexivity|]; split; [reflexivity|].
    match goal with Ha : every re_dash ?a = true |- _ =>
      exists a; rewrite app_nil_r_s; now repeat split end.
  - intros [Hn [-> [a [Hne [Ha ->]]]]].
    apply (M_Seq n Bol _ _ ("--" +:+ a) ""); [now constructor|].
    apply (M_Seq n (Lit "--") _ _ a ""); [exact (M_Lit n "--" a)|].
    apply (M_Seq n (Plus re_dash) Eol a "" ""); [|constructor].
    rewrite <- (app_nil_r_s a) at 1; now constructor.
Qed.

Lemma MatchString_separator (s : string) :
  MatchString separatorRegex s = true <->
  exists a, a <> "" /\ every re_dash a = true /\ s = "--" +:+ a.
Proof.
  unfold MatchString.
  assert (H : find separatorRegex s <> None <->
              exists a, a <> "" /\ every re_dash a = true /\ s = "--" +:+ a).
  { rewrite find_iff; split.
    - intros [pre [t [t' [E Hm]]]].
      apply separator_match in Hm as [Hl [_ [a [Hne [Ha Et]]]]].
      assert (pre = "") as ->.
      { destruct pre; [reflexivity|].
        rewrite E, length_app_s in Hl; simpl in Hl; lia. }
      exists a; now rewrite E, Et.
    - intros [a [Hne [Ha E]]]; exists "", s, ""; split; [reflexivity|].
      apply separator_match; repeat split; now exists a. }
  destruct (find separatorRegex s); split; intros H'; try discriminate.
  - apply H; discriminate.
  - reflexivity.
  - apply H in H'; congruence.
Qed.

Lemma dashes_no_S (a : string) :
  every re_dash a = true -> every (fun c => negb (Ascii.eqb c "S")) a = true.
Proof.
  induction a as [|c a IH]; simpl; [reflexivity|].
  intros H; apply andb_true_iff in H as [Hc Ha].
  unfold re_dash in Hc; apply Ascii.eqb_eq in Hc as ->.
  now rewrite (IH Ha).
Qed.

Lemma search_definition_none (n : nat) (s : string) :
  every (fun c => negb (Ascii.eqb c "S")) s = true ->
  search n variableRegex s = None.
Proof.
  induction s as [|c s IH]; [reflexivity|]; simpl every.
  intros H; apply andb_true_iff in H as [Hc Hs]; apply negb_true_iff in Hc.
  now rewrite search_unfold, (run_definition_miss n c s Hc), (IH Hs).
Qed.

(** X16. A line is a delimiter line exactly when, trimmed, it consists of
    three or more dashes. *)
Theorem delimiter_is_dashes (line : string) :
  isDelimiter line = true <->
  exists a, a <> "" /\ every re_dash a = true /\ TrimSpace line = "--" +:+ a.
Proof.
  rewrite <- MatchString_separator; unfold isDelimiter, classify; split.
  - destruct (FindStringSubmatch variableRegex (TrimSpace line)); [discriminate|].
    destruct (MatchString separatorRegex (TrimSpace line)); [reflexivity|].
    destruct (FindStringSubmatch nameRegex line); [discriminate|].
    now destruct (HasPrefix (TrimSpace line) "--").
  - intros H; pose proof H as H'.
    apply MatchString_separator in H' as [a [_ [Ha E]]].
    unfold FindStringSubmatch, find.
    rewrite search_definition_none; [now rewrite H|].
    rewrite E; simpl; now apply dashes_no_S.
Qed.

(** ** The end of the file and long lines *)

Lemma rawLines_final_newline (s : string) :
  s <> "" -> starts_with (is_byte 10) (String.rev s) = false ->
  rawLines (s +:+ LF) = rawLines s.
Proof.
  induction s as [|c s IH]; [congruence|]; intros _ Hlast.
  cbn [String.append rawLines].
  destruct s as [|d s].
  - simpl in Hlast; now rewrite Hlast.
  - assert (Hs : starts_with (is_byte 10) (String.rev (String d s)) = false).
    { rewrite rev_cons in Hlast.
      destruct (String.rev (String d s)) eqn:E; [|exact Hlast].
      apply (f_equal String.rev) in E; rewrite rev_involutive_s in E; discriminate. }
    now rewrite (IH ltac:(discriminate) Hs).
Qed.

(** X17. The line feed at the end of the file is optional: a file whose
    last line is not ended by one parses to what the file with it parses
    to. *)
Theorem final_newline_optional (content : string) :
  content <> "" -> starts_with (is_byte 10) (String.rev content) = false ->
  parseSQL (content +:+ LF) = parseSQL content.
Proof.
  intros Hne Hlast; unfold parseSQL, Scan.
  now rewrite (rawLines_final_newline content Hne Hlast).
Qed.

Lemma Scan_long_line (before after : list string) (l : string) :
  forallb plainLine before = true ->
  every (fun c => negb (is_byte 10 c)) l = true -> tooLong l = true ->
  Scan (fileOf (before ++ l :: after)) = (before, Some ErrTooLong).
Proof.
  intros Hb Hl Hlong; unfold Scan.
  induction before as [|b before IH]; cbn [app fileOf].
  - rewrite (rawLines_line l _ Hl); cbn [scanTokens]; now rewrite Hlong.
  - cbn [forallb] in Hb; apply andb_true_iff in Hb as [Hp Hb].
    unfold plainLine in Hp; apply andb_true_iff in Hp as [Hp Hlen].
    apply andb_true_iff in Hp as [Hlf Hcr]; apply negb_true_iff in Hlen.
    rewrite (rawLines_line b _ Hlf); cbn [scanTokens].
    rewrite Hlen, (IH Hb); f_equal; f_equal.
    unfold dropCR; destruct (String.rev b) as [|c r]; [reflexivity|].
    apply negb_true_iff in Hcr; now rewrite Hcr.
Qed.

(** X18. A line of 65536 bytes or more makes the file unusable: whatever
    is asked for, also a listing or a statement that stands before that
    line, [main] ends with exit code 1, the scanner's message and nothing
    on the standard output. *)
Theorem long_line_fails (ToLower : string -> string) (i : invocation)
    (before after : list string) (l : string) :
  filepathOf i <> "" -> HasSuffix (filepathOf i) ".sql" = true ->
  files i (filepathOf i) = inl (fileOf (before ++ l :: after)) ->
  forallb plainLine before = true ->
  every (fun c => negb (is_byte 10 c)) l = true -> tooLong l = true ->
  main ToLower i =
  mkResult "" ("error parsing sql: bufio.Scanner: token too long" +:+ LF) 1.
Proof.
  intros Hf Hs Ho Hb Hl Hlong.
  unfold main; fold (filepathOf i) (queryNameOf i) (configOf i).
  destruct (String.eqb_spec (filepathOf i) "") as [|_]; [congruence|].
  rewrite Hs, Ho; cbn [negb]; unfold parseSQL.
  now rewrite (Scan_long_line before after l Hb Hl Hlong).
Qed.

(** ** The added theorems at concrete inputs *)

Lemma crlf_file_parses_alike_witness :
  parseSQL (fileOfCRLF ["---"; "-- @name A"; "SELECT 1;"; "---"]) =
  parseSQL (fileOf ["---"; "-- @name A"; "SELECT 1;"; "---"]).
Proof.
  apply (crlf_file_parses_alike ["---"; "-- @name A"; "SELECT 1;"; "---"]);
    vm_compute; reflexivity.
Defined.

Lemma interpolate_concat_witness :
  fst (interpolateVariables ("id=@a" +:+ ", b=@b") (<["a" := "1"]> (<["b" := "2"]> ∅))) =
  fst (interpolateVariables "id=@a" (<["a" := "1"]> (<["b" := "2"]> ∅))) +:+
  fst (interpolateVariables ", b=@b" (<["a" := "1"]> (<["b" := "2"]> ∅))).
Proof.
  apply (interpolate_concat (<["a" := "1"]> (<["b" := "2"]> ∅)) "id=@a" ", b=@b").
  reflexivity.
Defined.

Lemma interpolate_without_at_witness :
  interpolateVariables "SELECT 1;" (<["a" := "1"]> ∅) = ("SELECT 1;", None).
Proof.
  apply (interpolate_without_at (<["a" := "1"]> ∅) "SELECT 1;"); reflexivity.
Defined.

Lemma classified_inside_witness :
  (containsSchemaChanges asciiToLower "DROP TABLE t" = true ->
   containsSchemaChanges asciiToLower ("-- " +:+ "DROP TABLE t" +:+ "; SELECT 1") = true) /\
  (containsUpdates asciiToLower "DROP TABLE t" = true ->
   containsUpdates asciiToLower ("-- " +:+ "DROP TABLE t" +:+ "; SELECT 1") = true).
Proof.
  apply (classified_inside asciiToLower "-- " "DROP TABLE t" "; SELECT 1").
  reflexivity.
Defined.

Lemma preview_short_witness :
  preview ("SELECT *" +:+ LF +:+ "FROM t;") = "SELECT *" +:+ LF +:+ "FROM t;".
Proof.
  apply (preview_short ("SELECT *" +:+ LF +:+ "FROM t;")); vm_compute; lia.
Defined.

Lemma unconfirmed_output_is_unflagged_witness :
  confirmFlag (mkInvocation "" "" false ["q.sql"; "Get"] None
                 (oneFile "q.sql" sampleFile) "n") = false /\
  Confirm (configOf (mkInvocation "" "" false ["q.sql"; "Get"] None
                       (oneFile "q.sql" sampleFile) "n")) = false /\
  (ConfirmSchemaChanges (configOf (mkInvocation "" "" false ["q.sql"; "Get"] None
                                     (oneFile "q.sql" sampleFile) "n")) = true ->
   containsSchemaChanges asciiToLower
     (stdout (main asciiToLower (mkInvocation "" "" false ["q.sql"; "Get"] None
                                   (oneFile "q.sql" sampleFile) "n"))) = false) /\
  (ConfirmUpdates (configOf (mkInvocation "" "" false ["q.sql"; "Get"] None
                               (oneFile "q.sql" sampleFile) "n")) = true ->
   containsUpdates asciiToLower
     (stdout (main asciiToLower (mkInvocation "" "" false ["q.sql"; "Get"] None
                                   (oneFile "q.sql" sampleFile) "n"))) = false).
Proof.
  apply (unconfirmed_output_is_unflagged asciiToLower
           (mkInvocation "" "" false ["q.sql"; "Get"] None
              (oneFile "q.sql" sampleFile) "n"));
    [vm_compute; discriminate | vm_compute; reflexivity].
Defined.

Lemma first_match_is_run_witness :
  main asciiToLower (mkInvocation "" "" false ["q.sql"; "Get"] None
                       (oneFile "q.sql" sampleFile) "n") =
  mkResult "SELECT * FROM t WHERE id = 7;" "" 0.
Proof.
  rewrite (first_match_is_run asciiToLower _ sampleFile []
             [mkQuery "Drop" "DROP TABLE t;"; mkQuery "Get" "SELECT 2;"]
             (mkQuery "Get" "SELECT * FROM t WHERE id = @id;")
             (<["id" := "7"]> ∅));
    [vm_compute; reflexivity | discriminate | reflexivity | reflexivity
    | vm_compute; reflexivity | reflexivity | constructor].
Defined.

Lemma unknown_name_witness :
  main asciiToLower (mkInvocation "q.sql" "Missing" true [] None
                       (oneFile "q.sql" sampleFile) "y") =
  mkResult "" ("error: query 'Missing' not found" +:+ LF) 1.
Proof.
  apply (unknown_name asciiToLower
           (mkInvocation "q.sql" "Missing" true [] None
              (oneFile "q.sql" sampleFile) "y")
           sampleFile
           [mkQuery "Get" "SELECT * FROM t WHERE id = @id;";
            mkQuery "Drop" "DROP TABLE t;"; mkQuery "Get" "SELECT 2;"]
           (<["id" := "7"]> ∅));
    [discriminate | reflexivity | reflexivity | vm_compute; reflexivity
    | discriminate | repeat constructor; discriminate].
Defined.

Lemma final_newline_optional_witness :
  parseSQL (("---" +:+ LF +:+ "-- @name A" +:+ LF +:+ "SELECT 1;") +:+ LF) =
  parseSQL ("---" +:+ LF +:+ "-- @name A" +:+ LF +:+ "SELECT 1;").
Proof.
  apply (final_newline_optional ("---" +:+ LF +:+ "-- @name A" +:+ LF +:+ "SELECT 1;"));
    [discriminate | vm_compute; reflexivity].
Defined.

Lemma long_line_fails_witness :
  main asciiToLower
    (mkInvocation "" "" false ["q.sql"; "A"] None
       (oneFile "q.sql"
          (fileOf (["---"; "-- @name A"; "SELECT 1;"; "---"] ++ longLine :: ["-- @name B"])))
       "y") =
  mkResult "" ("error parsing sql: bufio.Scanner: token too long" +:+ LF) 1.
Proof.
  apply (long_line_fails asciiToLower _
           ["---"; "-- @name A"; "SELECT 1;"; "---"] ["-- @name B"] longLine);
    [discriminate | reflexivity | reflexivity | reflexivity
    | vm_compute; reflexivity | vm_compute; reflexivity].
Defined.

Lemma stdout_is_a_statement_witness :
  exists content queries variables q,
    files (mkInvocation "" "" false ["q.sql"; "Get"] None
             (oneFile "q.sql" sampleFile) "n")
          (filepathOf (mkInvocation "" "" false ["q.sql"; "Get"] None
                         (oneFile "q.sql" sampleFile) "n")) = inl content /\
    parseSQL content = (queries, variables, None) /\
    In q queries /\
    Name q = queryNameOf (mkInvocation "" "" false ["q.sql"; "Get"] None
                            (oneFile "q.sql" sampleFile) "n") /\
    stdout (main asciiToLower (mkInvocation "" "" false ["q.sql"; "Get"] None
                                 (oneFile "q.sql" sampleFile) "n")) =
      fst (interpolateVariables (SQL q) variables) /\
    exitCode (main asciiToLower (mkInvocation "" "" false ["q.sql"; "Get"] None
                                   (oneFile "q.sql" sampleFile) "n")) = 0.
Proof.
  apply (stdout_is_a_statement asciiToLower
           (mkInvocation "" "" false ["q.sql"; "Get"] None
              (oneFile "q.sql" sampleFile) "n")).
  vm_compute; discriminate.
Defined.

(** The preview of a longer query: its first five lines and the number of
    all its lines. *)
Example preview_long :
  preview ("1" +:+ LF +:+ "2" +:+ LF +:+ "3" +:+ LF +:+ "4" +:+ LF +:+ "5" +:+ LF +:+
           "6" +:+ LF +:+ "7") =
  "1" +:+ LF +:+ "2" +:+ LF +:+ "3" +:+ LF +:+ "4" +:+ LF +:+ "5" +:+ LF +:+
  " and 7 more lines...".
Proof. vm_compute; reflexivity. Qed.

(** A schema change under the default configuration: asked, refused,
    nothing printed. *)
Example drop_is_gated :
  main asciiToLower (mkInvocation "" "" false ["q.sql"; "Drop"] None
                       (oneFile "q.sql" sampleFile) "no") =
  mkResult "" (confirmPrompt "Drop" "DROP TABLE t;" +:+ "cancelled" +:+ LF) 1.
Proof. vm_compute; reflexivity. Qed.

Lemma failure_prints_nothing_witness :
  stdout (main asciiToLower (mkInvocation "q.sql" "Missing" true [] None
                               (oneFile "q.sql" sampleFile) "y")) = "".
Proof.
  apply (failure_prints_nothing asciiToLower
           (mkInvocation "q.sql" "Missing" true [] None
              (oneFile "q.sql" sampleFile) "y")).
  vm_compute; discriminate.
Defined.

(** * Lines in general *)

(** ** What trimming and scanning keep *)

Lemma every_rev (p : ascii -> bool) (s : string) :
  every p (String.rev s) = every p s.
Proof.
  induction s as [|c s IH]; [reflexivity|].
  rewrite rev_cons, every_app, IH; simpl.
  now rewrite andb_true_r, andb_comm.
Qed.

Lemma every_suffix (p : ascii -> bool) (d t : string) :
  every p (d +:+ t) = true -> every p t = true.
Proof. rewrite every_app; intros H; now apply andb_true_iff in H. Qed.

(** What is left of a text is made of its characters. *)
Lemma every_TrimSpace (p : ascii -> bool) (s : string) :
  every p s = true -> every p (TrimSpace s) = true.
Proof.
  intros H; unfold TrimSpace, TrimRight.
  destruct (TrimLeft_suffix s) as [d E]; rewrite E in H.
  apply every_suffix in H; rewrite <- every_rev in H.
  destruct (trim_reversed_suffix (String.rev (TrimLeft s))) as [d' E'].
  rewrite E' in H; apply every_suffix in H.
  now rewrite every_rev.
Qed.

Section Dropped.

(** A class [p] of characters that holds every byte of every white space
    character. *)
Variable p : ascii -> bool.
Hypothesis one : forall c, isSpace1 c = true -> p c = true.
Hypothesis two : forall c d, isSpace2 c d = true -> p c = true /\ p d = true.
Hypothesis three :
  forall c d e, isSpace3 c d e = true -> p c = true /\ p d = true /\ p e = true.

Lemma TrimLeft_dropped (s : string) :
  every p (TrimLeft s) = true -> every p s = true.
Proof.
  remember (String.length s) as n eqn:Hn; revert s Hn.
  induction n as [n IH] using lt_wf_ind; intros s Hn.
  rewrite TrimLeft_unfold.
  destruct s as [|c s1]; [easy|].
  destruct (isSpace1 c) eqn:E1.
  { intros H; simpl; rewrite (one c E1).
    apply (IH (String.length s1)); [subst; simpl; lia | reflexivity | exact H]. }
  destruct s1 as [|d s2]; [easy|].
  destruct (isSpace2 c d) eqn:E2.
  { intros H; simpl; destruct (two c d E2) as [-> ->].
    apply (IH (String.length s2)); [subst; simpl; lia | reflexivity | exact H]. }
  destruct s2 as [|e s3]; [easy|].
  destruct (isSpace3 c d e) eqn:E3; [|easy].
  intros H; simpl; destruct (three c d e E3) as [-> [-> ->]].
  apply (IH (String.length s3)); [subst; simpl; lia | reflexivity | exact H].
Qed.

Lemma trim_reversed_dropped (s : string) :
  every p (trim_reversed s) = true -> every p s = true.
Proof.
  remember (String.length s) as n eqn:Hn; revert s Hn.
  induction n as [n IH] using lt_wf_ind; intros s Hn.
  rewrite trim_reversed_unfold.
  destruct s as [|c s1]; [easy|].
  destruct (isSpace1 c) eqn:E1.
  { intros H; simpl; rewrite (one c E1).
    apply (IH (String.length s1)); [subst; simpl; lia | reflexivity | exact H]. }
  destruct s1 as [|d s2]; [easy|].
  destruct (isSpace2 d c) eqn:E2.
  { intros H; simpl; destruct (two d c E2) as [-> ->].
    apply (IH (String.length s2)); [subst; simpl; lia | reflexivity | exact H]. }
  destruct s2 as [|e s3]; [easy|].
  destruct (isSpace3 e d c) eqn:E3; [|easy].
  intros H; simpl; destruct (three e d c E3) as [-> [-> ->]].
  apply (IH (String.length s3)); [subst; simpl; lia | reflexivity | exact H].
Qed.

(** When what is left is in the class, so was the whole text. *)
Lemma TrimSpace_dropped (s : string) :
  every p (TrimSpace s) = true -> every p s = true.
Proof.
  unfold TrimSpace, TrimRight; rewrite every_rev; intros H.
  apply trim_reversed_dropped in H; rewrite every_rev in H.
  now apply TrimLeft_dropped.
Qed.

End Dropped.

Lemma in_range_noAt (lo hi : N) (c : ascii) :
  (64 < lo)%N -> in_range lo hi c = true -> noAt c = true.
Proof.
  intros Hlo H; unfold noAt; destruct (Ascii.eqb_spec c "@") as [->|]; [|reflexivity].
  unfold in_range in H; apply andb_true_iff in H as [H _].
  apply N.leb_le in H; change (code "@") with 64%N in H; lia.
Qed.

Lemma isSpace1_noAt (c : ascii) : isSpace1 c = true -> noAt c = true.
Proof.
  unfold isSpace1, is_byte; rewrite !orb_true_iff, !Ascii.eqb_eq.
  intuition (subst; reflexivity).
Qed.

Lemma isSpace2_noAt (c d : ascii) :
  isSpace2 c d = true -> noAt c = true /\ noAt d = true.
Proof.
  unfold isSpace2, is_byte; rewrite andb_true_iff, orb_true_iff, !Ascii.eqb_eq.
  intuition (subst; reflexivity).
Qed.

Lemma isSpace3_noAt (c d e : ascii) :
  isSpace3 c d e = true -> noAt c = true /\ noAt d = true /\ noAt e = true.
Proof.
  unfold isSpace3, is_byte.
  rewrite !orb_true_iff, !andb_true_iff, !orb_true_iff, !Ascii.eqb_eq.
  intros H; repeat split;
    intuition (subst; try reflexivity; now apply (in_range_noAt 128 138)).
Qed.

(** Trimming takes no [@] away. *)
Lemma TrimSpace_noAt (s : string) :
  every noAt (TrimSpace s) = true -> every noAt s = true.
Proof.
  apply TrimSpace_dropped;
    [exact isSpace1_noAt | exact isSpace2_noAt | exact isSpace3_noAt].
Qed.

(** No line the scanner delivers holds a line feed. *)
Lemma rawLines_no_LF (s : string) :
  Forall (fun l => every re_dot l = true) (rawLines s).
Proof.
  induction s as [|c s IH]; simpl; [constructor|].
  unfold is_byte, re_dot in *.
  destruct (Ascii.eqb c (byte 10)) eqn:E; [now constructor|].
  destruct (rawLines s) as [|l ls].
  - constructor; [simpl; now rewrite E | constructor].
  - inversion IH as [|? ? Hl Hls]; subst.
    constructor; [simpl; now rewrite E | exact Hls].
Qed.

Lemma every_dropCR (p : ascii -> bool) (l : string) :
  every p l = true -> every p (dropCR l) = true.
Proof.
  intros H; unfold dropCR.
  destruct (String.rev l) as [|c r] eqn:E; [exact H|].
  destruct (is_byte 13 c); [|exact H].
  rewrite <- every_rev, E in H; simpl in H.
  apply andb_true_iff in H as [_ H]; now rewrite every_rev.
Qed.

Lemma scanTokens_every (p : ascii -> bool) (raw : list string) :
  Forall (fun l => every p l = true) raw ->
  Forall (fun l => every p l = true) (fst (scanTokens raw)).
Proof.
  induction 1 as [|l raw Hl _ IH]; simpl; [constructor|].
  destruct (tooLong l); [constructor|].
  destruct (scanTokens raw) as [ts e]; simpl in *.
  constructor; [now apply every_dropCR | exact IH].
Qed.

Lemma Scan_no_LF (content line : string) :
  In line (fst (Scan content)) -> every re_dot line = true.
Proof.
  intros H.
  pose proof (scanTokens_every re_dot _ (rawLines_no_LF content)) as HF.
  rewrite List.Forall_forall in HF; now apply HF.
Qed.

Lemma every_definitionLine (p : ascii -> bool) (ws1 name ws2 ws3 rhs : string) :
  every p (definitionLine ws1 name ws2 ws3 rhs) = true -> every p rhs = true.
Proof.
  unfold definitionLine; intros H.
  repeat (apply every_suffix in H); exact H.
Qed.

(** The right-hand side of a definition in a line of a file holds no line
    feed. *)
Lemma definition_in_line (content line pre ws1 name ws2 ws3 rhs : string) :
  In line (fst (Scan content)) ->
  TrimSpace line = pre +:+ definitionLine ws1 name ws2 ws3 rhs ->
  every re_dot rhs = true.
Proof.
  intros Hin Hline.
  apply Scan_no_LF, (every_TrimSpace re_dot) in Hin.
  rewrite Hline in Hin; apply every_suffix in Hin.
  now apply every_definitionLine in Hin.
Qed.

(** ** The annotation expression [--\s*@name\s*(\w+)] *)

Lemma word_not_space (c : ascii) : re_word c = true -> re_space c = false.
Proof.
  intros H; destruct (re_space c) eqn:E; [|reflexivity].
  apply space_not_word in E; congruence.
Qed.

(** The expression matches an annotation from its comment marker and
    captures the name. *)
Lemma run_annotation (n : nat) (ws1 ws2 name rest : string) :
  every re_space ws1 = true -> every re_space ws2 = true ->
  name <> "" -> every re_word name = true -> starts_with re_word rest = false ->
  run n nameRegex ("--" +:+ ws1 +:+ "@name" +:+ ws2 +:+ name +:+ rest) [] accept =
  Some (rest, [name]).
Proof.
  intros W1 W2 Nn Wn Hrest; unfold nameRegex.
  rewrite run_Seq, run_Lit_app.
  rewrite run_Seq; apply run_Star_run; [exact W1 | reflexivity |].
  rewrite run_Seq, run_Lit_app.
  rewrite run_Seq; apply run_Star_run; [exact W2 | |].
  { destruct name as [|c name]; [congruence|]; simpl in *.
    apply andb_true_iff in Wn as [Hc _]; now apply word_not_space. }
  rewrite run_Cap; apply run_Plus_run; [exact Nn | exact Wn | exact Hrest |].
  now rewrite consumed_app.
Qed.

(** Where no dash stands no match starts. *)
Lemma run_annotation_miss (n : nat) (c : ascii) (s : string) :
  noDash c = true -> run n nameRegex (String c s) [] accept = None.
Proof.
  unfold noDash; intros H; apply negb_true_iff in H.
  unfold nameRegex; rewrite run_Seq; simpl.
  now rewrite Ascii.eqb_sym, H.
Qed.

Lemma search_annotation (n : nat) (pre ws1 ws2 name rest : string) :
  every noDash pre = true ->
  every re_space ws1 = true -> every re_space ws2 = true ->
  name <> "" -> every re_word name = true -> starts_with re_word rest = false ->
  exists text,
    search n nameRegex (annotationLine pre ws1 ws2 name rest) =
    Some (mkMatch pre text rest [name]).
Proof.
  intros Hpre W1 W2 Nn Wn Hrest.
  induction pre as [|c pre IH].
  - eexists.
    change (annotationLine "" ws1 ws2 name rest)
      with ("--" +:+ ws1 +:+ "@name" +:+ ws2 +:+ name +:+ rest).
    now rewrite search_unfold, (run_annotation n ws1 ws2 name rest W1 W2 Nn Wn Hrest).
  - simpl in Hpre; apply andb_true_iff in Hpre as [Hc Hpre].
    destruct (IH Hpre) as [text E]; exists text.
    change (annotationLine (String c pre) ws1 ws2 name rest)
      with (String c (annotationLine pre ws1 ws2 name rest)).
    now rewrite search_unfold, (run_annotation_miss n c _ Hc), E.
Qed.

(** A line with an [@] is no delimiter line. *)
Lemma at_no_delimiter (line : string) :
  every noAt line = false -> MatchString separatorRegex (TrimSpace line) = false.
Proof.
  intros H; destruct (MatchString separatorRegex (TrimSpace line)) eqn:E;
    [|reflexivity].
  apply MatchString_separator in E as [a [_ [Ha E]]].
  rewrite TrimSpace_noAt in H; [discriminate|].
  rewrite E; simpl.
  clear E; induction a as [|c a IH]; simpl in *; [reflexivity|].
  apply andb_true_iff in Ha as [Hc Ha]; rewrite (IH Ha), andb_true_r.
  unfold re_dash in Hc; apply Ascii.eqb_eq in Hc as ->; reflexivity.
Qed.

Lemma annotationLine_at (pre ws1 ws2 name rest : string) :
  every noAt (annotationLine pre ws1 ws2 name rest) = false.
Proof.
  unfold annotationLine.
  rewrite every_app, (every_app _ "--"), (every_app _ ws1); simpl.
  now rewrite !andb_false_r.
Qed.

Lemma classify_annotation (pre ws1 ws2 name rest : string) :
  every noDash pre = true ->
  every re_space ws1 = true -> every re_space ws2 = true ->
  name <> "" -> every re_word name = true -> starts_with re_word rest = false ->
  isDefinition (annotationLine pre ws1 ws2 name rest) = false ->
  classify (annotationLine pre ws1 ws2 name rest) = Annotation name.
Proof.
  intros Hpre W1 W2 Nn Wn Hrest Hdef.
  apply isDefinition_false in Hdef.
  unfold classify; rewrite Hdef.
  rewrite (at_no_delimiter _ (annotationLine_at pre ws1 ws2 name rest)).
  unfold FindStringSubmatch, find.
  destruct (search_annotation
              (String.length (annotationLine pre ws1 ws2 name rest))
              pre ws1 ws2 name rest Hpre W1 W2 Nn Wn Hrest) as [text ->].
  reflexivity.
Qed.

(** * The claims about single lines *)

(** ** Annotations *)

(** C6. The annotation is found whatever white space is written around
    [@name]: in a line made of a text without dash, the comment marker,
    any white space (none too), [@name], any white space (none too), a
    name of word characters and a rest that does not go on with a word
    character -- and that is no variable definition, which would come
    first --, the step gives the block in progress that name and changes
    nothing else.  The three lines [-- @name Foo], [--   @name   Foo   ]
    and [--@nameFoo] are such lines, with the name [Foo]. *)
Theorem annotation_whitespace (qs : list Query) (q : Query) (ls : list string)
    (vs : gmap string string) (pre ws1 ws2 name rest : string) :
  every noDash pre = true ->
  every re_space ws1 = true -> every re_space ws2 = true ->
  name <> "" -> every re_word name = true -> starts_with re_word rest = false ->
  isDefinition (annotationLine pre ws1 ws2 name rest) = false ->
  step (mkState qs (Some q) ls vs) (annotationLine pre ws1 ws2 name rest) =
  mkState qs (Some (mkQuery name (SQL q))) ls vs.
Proof.
  intros Hpre W1 W2 Nn Wn Hrest Hdef.
  rewrite step_classify.
  now rewrite (classify_annotation pre ws1 ws2 name rest Hpre W1 W2 Nn Wn Hrest Hdef).
Qed.

(** The three lines of the claim between two delimiter lines. *)
Example annotation_spellings :
  Forall (fun line =>
            fst (fst (parseSQL (fileOf ["---"; line; "SELECT 1;"; "---"]))) =
            [mkQuery "Foo" "SELECT 1;"])
         ["-- @name Foo"; "--   @name   Foo   "; "--@nameFoo"].
Proof. repeat constructor. Qed.

(** ** The variable table *)



(** ** Definitions inside a line *)

(** C8. A line of a file that holds a definition anywhere once it is
    trimmed is taken as a variable definition: the step records a binding
    and leaves the statements, the current block and its content lines as
    they are, so the line is in no statement.  When no match of the
    definition expression starts before that definition, the binding is
    its own, with the value that ends before the first semicolon behind
    its first character.  So it is for a comment line and for a line of
    SQL. *)
Theorem definition_found_anywhere (content : string) (st : state)
    (line pre ws1 name ws2 ws3 rhs : string) :
  In line (fst (Scan content)) ->
  TrimSpace line = pre +:+ definitionLine ws1 name ws2 ws3 rhs ->
  definitionSides ws1 name ws2 ws3 rhs = true ->
  (exists varName varValue,
     step st line =
     mkState (queries st) (currentQuery st) (sqlLines st)
             (<[varName := varValue]> (variables st))) /\
  (leftmostAt variableRegex pre (definitionLine ws1 name ws2 ws3 rhs) ->
   step st line =
   mkState (queries st) (currentQuery st) (sqlLines st)
           (<[name := TrimSpace (valueOf rhs)]> (variables st))) /\
  classify "-- SET @x = 1" = VariableDefinition "x" "1" /\
  classify "UPDATE t SET @x = 1; -- one" = VariableDefinition "x" "1".
Proof.
  intros Hin Hline Hsides.
  pose proof (definition_in_line content line pre ws1 name ws2 ws3 rhs Hin Hline)
    as Hdot.
  repeat split.
  - destruct (classify_definition_anywhere line pre ws1 name ws2 ws3 rhs
                Hline Hsides Hdot) as [varName [varValue E]].
    exists varName, varValue; now rewrite step_classify, E.
  - intros Hleft; rewrite step_classify.
    now rewrite (classify_definition line pre ws1 name ws2 ws3 rhs
                   Hline Hsides Hdot Hleft).
Qed.

(** ** The theorems at concrete inputs *)

Lemma annotation_whitespace_witness :
  step (mkState [] (Some (mkQuery "" "")) [] ∅) "-- @name Foo" =
  mkState [] (Some (mkQuery "Foo" "")) [] ∅
  /\ step (mkState [] (Some (mkQuery "" "")) [] ∅) "--   @name   Foo   " =
     mkState [] (Some (mkQuery "Foo" "")) [] ∅
  /\ step (mkState [] (Some (mkQuery "" "")) [] ∅) "--@nameFoo" =
     mkState [] (Some (mkQuery "Foo" "")) [] ∅
  /\ step (mkState [] (Some (mkQuery "" "")) [] ∅) "SELECT 1; -- @name Foo-bar" =
     mkState [] (Some (mkQuery "Foo" "")) [] ∅.
Proof.
  split; [|split; [|split]].
  - apply (annotation_whitespace [] (mkQuery "" "") [] ∅ "" " " " " "Foo" "");
      [reflexivity | reflexivity | reflexivity | discriminate | reflexivity
      | reflexivity | vm_compute; reflexivity].
  - apply (annotation_whitespace [] (mkQuery "" "") [] ∅ "" "   " "   " "Foo" "   ");
      [reflexivity | reflexivity | reflexivity | discriminate | reflexivity
      | reflexivity | vm_compute; reflexivity].
  - apply (annotation_whitespace [] (mkQuery "" "") [] ∅ "" "" "" "Foo" "");
      [reflexivity | reflexivity | reflexivity | discriminate | reflexivity
      | reflexivity | vm_compute; reflexivity].
  - apply (annotation_whitespace [] (mkQuery "" "") [] ∅ "SELECT 1; " " " " " "Foo" "-bar");
      [reflexivity | reflexivity | reflexivity | discriminate | reflexivity
      | reflexivity | vm_compute; reflexivity].
Defined.


Lemma definition_found_anywhere_witness :
  (exists varName varValue,
     step initial "  SELECT 1; SET @x = 2; SET @y = 3;" =
     mkState [] None [] (<[varName := varValue]> ∅)) /\
  step initial "  SELECT 1; SET @x = 2; SET @y = 3;" =
  mkState [] None [] (<["x" := "2"]> ∅).
Proof.
  destruct (definition_found_anywhere
              ("  SELECT 1; SET @x = 2; SET @y = 3;" +:+ LF)
              initial "  SELECT 1; SET @x = 2; SET @y = 3;"
              "SELECT 1; " " " "x" " " " " "2; SET @y = 3;")
    as [Hsome [Hthis _]];
    [vm_compute; now left | reflexivity | reflexivity |].
  split; [exact Hsome|].
  apply Hthis, noStart_leftmost; vm_compute; reflexivity.
Defined.
